(** * Probe & Load Service of the Anti-Gravity DevOps Platform

    A shallow embedding of the Express router [src/routes/api.js] and of
    the rate limiter configured in [src/app.js], with the properties of the
    health, load-test and metrics endpoints. The earlier single-file
    application has the same tracking middleware and the same handler of
    /load, writing to the console where the router writes to its logger.

    What lies outside the program (the clock, the heap counters, the
    counter store, the metrics serializer) is a sequence of answers that
    the program consumes; the state of the process is threaded through the
    handlers.

    JavaScript strings are sequences of UTF-16 code units ([list N]).
    Integer-valued JavaScript numbers are integers of [Z]. This is the
    number of the program for magnitudes up to 2^53, which a double holds
    exactly; beyond, JavaScript rounds to the nearest double (and to an
    infinity past the largest one), which is not modelled. The cap of 30
    hides the difference for large positive values; a statement about the
    value of a negative duration carries the bound -2^53 as a hypothesis. *)

From Stdlib Require Import ZArith NArith QArith Lia String Ascii.
From stdpp Require Import gmap list.

Set Warnings "-register-all".
Local Open Scope Z_scope.

(** ** JavaScript strings *)

Module JsString.

(** A string literal of the source, as code units. *)
Definition str (s : string) : list N :=
  map N_of_ascii (list_ascii_of_string s).

(** [StrWhiteSpaceChar] of ECMAScript: white space and line terminators. *)
Definition isWhiteSpace (c : N) : bool :=
  ((9 <=? c) && (c <=? 13) || (c =? 32) || (c =? 160) || (c =? 5760)
   || (8192 <=? c) && (c <=? 8202) || (c =? 8232) || (c =? 8233)
   || (c =? 8239) || (c =? 8287) || (c =? 12288) || (c =? 65279))%N.

Fixpoint trim_start (s : list N) : list N :=
  match s with
  | c :: s' => if isWhiteSpace c then trim_start s' else s
  | [] => []
  end.

(** The code unit of a decimal digit. *)
Definition digit_char (d : N) : N := (48 + d)%N.

(** Decimal digits of a natural number, most significant first; [fuel]
    bounds the number of digits. *)
Fixpoint digits_of (fuel : nat) (n : N) (acc : list N) : list N :=
  match fuel with
  | O => acc
  | S fuel' =>
      let acc' := digit_char (n mod 10) :: acc in
      if (n <? 10)%N then acc' else digits_of fuel' (n / 10) acc'
  end.

(** [Number.prototype.toString] on a non-negative integer below 10^21. *)
Definition decimal (n : N) : list N := digits_of (S (N.to_nat (N.log2 n))) n [].

(** [Number.prototype.toString] on an integer of magnitude below 10^21. *)
Definition decimalZ (z : Z) : list N :=
  if z <? 0 then 45%N :: decimal (Z.to_N (- z)) else decimal (Z.to_N z).

End JsString.
Import JsString.

(** ** Numbers, query values and [parseInt] *)

(** The result of [parseInt]: NaN or an integer. *)
Inductive number : Type :=
  | NaN
  | Num (z : Z).

(** A value of [req.query] as the query-string parser builds it: absent,
    a string, an array ([a=1&a=2]) or a nested object ([a[b]=1]). *)
Inductive query_value : Type :=
  | QUndefined
  | QString (s : list N)
  | QArray (l : list query_value)
  | QObject.

(** [ToString]: an array is its elements joined by commas, an undefined
    element giving the empty string; a plain object is [[object Object]]. *)
Fixpoint ToString (v : query_value) : list N :=
  match v with
  | QUndefined => str "undefined"
  | QString s => s
  | QArray l =>
      (fix join (l : list query_value) : list N :=
         match l with
         | [] => []
         | x :: r =>
             let e := match x with QUndefined => [] | _ => ToString x end in
             match r with
             | [] => e
             | _ :: _ => e ++ 44%N :: join r
             end
         end) l
  | QObject => str "[object Object]"
  end.

(** The value of a character as a digit in some radix up to 36. *)
Definition digit_value (c : N) : option N :=
  if ((48 <=? c) && (c <=? 57))%N then Some (c - 48)%N
  else if ((97 <=? c) && (c <=? 122))%N then Some (c - 87)%N
  else if ((65 <=? c) && (c <=? 90))%N then Some (c - 55)%N
  else None.

Definition radix_digit (R c : N) : option N :=
  match digit_value c with
  | Some v => if (v <? R)%N then Some v else None
  | None => None
  end.

(** The longest prefix of radix-[R] digits, as a number; [acc] is [None]
    until a digit has been read. *)
Fixpoint parse_digits (R : N) (s : list N) (acc : option N) : option N :=
  match s with
  | c :: s' =>
      match radix_digit R c with
      | Some v => parse_digits R s' (Some (default 0%N acc * R + v)%N)
      | None => acc
      end
  | [] => acc
  end.

(** An optional sign in front of the digits. *)
Definition read_sign (s : list N) : Z * list N :=
  match s with
  | 45%N :: r => (-1, r)
  | 43%N :: r => (1, r)
  | _ => (1, s)
  end.

(** With no radix argument, a [0x] or [0X] prefix selects radix 16 and is
    removed; the radix is 10 otherwise. *)
Definition read_radix (s : list N) : N * list N :=
  match s with
  | 48%N :: x :: r => if ((x =? 120) || (x =? 88))%N then (16%N, r) else (10%N, s)
  | _ => (10%N, s)
  end.

(** [parseInt(v)] with no radix argument: white space is skipped, a sign is
    read, then a radix prefix, and the digits up to the first other
    character are the value; no digit at all gives NaN. The value is the
    mathematical integer of the digits, which is the double JavaScript
    returns as long as its magnitude is at most 2^53. *)
Definition parseInt (v : query_value) : number :=
  let '(sign, S1) := read_sign (trim_start (ToString v)) in
  let '(R, S2) := read_radix S1 in
  match parse_digits R S2 None with
  | None => NaN
  | Some m => Num (sign * Z.of_N m)
  end.

(** [n || d]: NaN and zero are falsy. *)
Definition or_default (n : number) (d : Z) : Z :=
  match n with
  | NaN => d
  | Num 0 => d
  | Num z => z
  end.

(** [Math.min(parseInt(req.query.duration) || 5, 30)], the first line of
    the handler of /load. *)
Definition requested_duration (v : query_value) : Z :=
  Z.min (or_default (parseInt v) 5) 30.

(** ** JSON values and responses *)

Inductive jsval : Type :=
  | VNum (q : Q)
  | VStr (s : list N)
  | VBool (b : bool)
  | VObj (fields : list (list N * jsval))
  | VArr (items : list jsval).

Fixpoint assoc (k : list N) (fields : list (list N * jsval)) : option jsval :=
  match fields with
  | (k', v) :: rest => if bool_decide (k' = k) then Some v else assoc k rest
  | [] => None
  end.

(** Property access [v.k] on an object literal. *)
Definition field (k : string) (v : jsval) : option jsval :=
  match v with
  | VObj fields => assoc (str k) fields
  | _ => None
  end.

(** A JSON number that is an integer. *)
Definition is_integer (v : jsval) : bool :=
  match v with
  | VNum q => Zpos (Qden (Qred q)) =? 1
  | _ => false
  end.

Inductive Body : Type :=
  | BJson (v : jsval)
  | BText (s : list N).

Record Error : Type := { message : list N }.

Record Request : Type := {
  method : list N;
  path : list N;
  ip : list N;
  query : gmap (list N) query_value
}.

(** [req.query.duration]: a missing property reads as [undefined]. *)
Definition query_param (k : string) (req : Request) : query_value :=
  default QUndefined (query req !! str k).

(** The request with query parameter [k] given ([Some v]) or left out. *)
Definition with_param (k : string) (v : option query_value) (req : Request) : Request :=
  {| method := method req; path := path req; ip := ip req;
     query := match v with
              | Some v => <[str k := v]> (query req)
              | None => delete (str k) (query req)
              end |}.

(** What a JSON response holds under [k]. *)
Definition response_field (k : string) (body : option Body) : option jsval :=
  match body with
  | Some (BJson v) => field k v
  | _ => None
  end.

(** The closure registered by [res.on('finish', ...)]: what it reads of the
    request and the start time it captures. *)
Record Listener : Type := { l_method : list N; l_path : list N; l_start : Z }.

(** The response object: status code (200 until set), headers, the body once
    the response has been ended, and the listeners of its [finish] event. *)
Record Res : Type := {
  statusCode : Z;
  headers : list (string * list N);
  body : option Body;
  on_finish : list Listener
}.

Definition fresh_res : Res :=
  {| statusCode := 200; headers := []; body := None; on_finish := [] |}.

Definition res_status (code : Z) (res : Res) : Res :=
  {| statusCode := code; headers := headers res; body := body res;
     on_finish := on_finish res |}.

Definition res_set (k : string) (v : list N) (res : Res) : Res :=
  {| statusCode := statusCode res; headers := headers res ++ [(k, v)];
     body := body res; on_finish := on_finish res |}.

Definition res_end (b : Body) (res : Res) : Res :=
  {| statusCode := statusCode res; headers := headers res; body := Some b;
     on_finish := on_finish res |}.

(** [res.json(v)]: sets the content type and ends the response. *)
Definition res_json (v : jsval) (res : Res) : Res :=
  res_end (BJson v) (res_set "Content-Type" (str "application/json; charset=utf-8") res).

Definition res_on_finish (l : Listener) (res : Res) : Res :=
  {| statusCode := statusCode res; headers := headers res; body := body res;
     on_finish := on_finish res ++ [l] |}.

(** ** The metrics registry *)

(** Upper bounds of the duration histogram, in milliseconds: the source
    gives them in seconds, [0.001, 0.005, 0.015, 0.05, 0.1, 0.5, 1, 5], and
    observes [(Date.now() - start) / 1000]. *)
Definition buckets : list Z := [1; 5; 15; 50; 100; 500; 1000; 5000].

Record HistogramValue : Type := {
  bucket_counts : list nat;
  sum_ms : Z;
  observations : nat
}.

Definition empty_histogram : HistogramValue :=
  {| bucket_counts := replicate (length buckets) 0%nat; sum_ms := 0;
     observations := 0 |}.

(** The count of the first bucket that holds [v] goes up by one. *)
Fixpoint bump (bounds : list Z) (counts : list nat) (v : Z) : list nat :=
  match bounds, counts with
  | b :: bounds', c :: counts' =>
      if v <=? b then S c :: counts' else c :: bump bounds' counts' v
  | _, _ => counts
  end.

Definition observe (v : Z) (h : HistogramValue) : HistogramValue :=
  {| bucket_counts := bump buckets (bucket_counts h) v;
     sum_ms := sum_ms h + v;
     observations := S (observations h) |}.

Record Registry : Type := {
  httpRequestsTotal : gmap (list N * list N * Z) nat;
  httpRequestDuration : gmap (list N * list N) HistogramValue;
  loadTestsTotal : nat;
  activeConnections : Z
}.

Definition empty_registry : Registry :=
  {| httpRequestsTotal := ∅; httpRequestDuration := ∅; loadTestsTotal := 0;
     activeConnections := 0 |}.

(** ** The process and its collaborators *)

(** A collaborator outside the program answers the [n]-th call made to it
    with [feed n]; [used] counts the calls made so far. *)
Record Oracle (A : Type) : Type := { feed : nat -> A; used : nat }.
Arguments feed {A} _ _.
Arguments used {A} _.

Definition ask {A : Type} (o : Oracle A) : A * Oracle A :=
  (feed o (used o), {| feed := feed o; used := S (used o) |}).

Record MemoryUsage : Type := { heapUsed : N; heapTotal : N }.

(** How the awaited [redis.incr('survivor_count')] settles: with the new
    count, or with an error (thrown or rejected), which the handler
    catches alike. *)
Inductive incr_outcome : Type :=
  | Resolved (n : Z)
  | Rejected (e : Error).

(** How the awaited [register.metrics()] settles. *)
Inductive metrics_outcome : Type :=
  | Serialized (text : list N)
  | Failed (e : Error).

Inductive level : Type := info | warn | error.

Record LogEntry : Type := { lvl : level; text : list N; meta : option Error }.

Record World : Type := {
  wall : Oracle Z;                 (* Date.now() and new Date(), milliseconds *)
  heap : Oracle MemoryUsage;       (* process.memoryUsage() *)
  uptime : Oracle Q;               (* process.uptime() *)
  redis : Oracle incr_outcome;     (* redis.incr *)
  prom : Oracle metrics_outcome;   (* register.metrics() *)
  registry : Registry;
  logs : list LogEntry
}.

Definition M (A : Type) : Type := World -> A * World.

Definition ret {A : Type} (a : A) : M A := fun w => (a, w).

Definition bind {A B : Type} (c : M A) (k : A -> M B) : M B :=
  fun w => let '(a, w') := c w in k a w'.

Notation "'let*' x ':=' c 'in' k" := (bind c (fun x => k))
  (at level 10, x pattern, c at level 100, k at level 200).

Definition Date_now : M Z := fun w =>
  let '(t, o) := ask (wall w) in
  (t, {| wall := o; heap := heap w; uptime := uptime w; redis := redis w;
         prom := prom w; registry := registry w; logs := logs w |}).

Definition process_memoryUsage : M MemoryUsage := fun w =>
  let '(m, o) := ask (heap w) in
  (m, {| wall := wall w; heap := o; uptime := uptime w; redis := redis w;
         prom := prom w; registry := registry w; logs := logs w |}).

Definition process_uptime : M Q := fun w =>
  let '(u, o) := ask (uptime w) in
  (u, {| wall := wall w; heap := heap w; uptime := o; redis := redis w;
         prom := prom w; registry := registry w; logs := logs w |}).

Definition redis_incr : M incr_outcome := fun w =>
  let '(r, o) := ask (redis w) in
  (r, {| wall := wall w; heap := heap w; uptime := uptime w; redis := o;
         prom := prom w; registry := registry w; logs := logs w |}).

Definition register_metrics : M metrics_outcome := fun w =>
  let '(r, o) := ask (prom w) in
  (r, {| wall := wall w; heap := heap w; uptime := uptime w; redis := redis w;
         prom := o; registry := registry w; logs := logs w |}).

Definition modify_registry (f : Registry -> Registry) : M unit := fun w =>
  (tt, {| wall := wall w; heap := heap w; uptime := uptime w; redis := redis w;
          prom := prom w; registry := f (registry w); logs := logs w |}).

Definition logger (l : level) (msg : list N) (e : option Error) : M unit := fun w =>
  (tt, {| wall := wall w; heap := heap w; uptime := uptime w; redis := redis w;
          prom := prom w; registry := registry w;
          logs := logs w ++ [{| lvl := l; text := msg; meta := e |}] |}).

(** [Counter.inc(labels)], [Histogram.observe(labels, v)], [Counter.inc()],
    [Gauge.inc()] and [Gauge.dec()] of the metrics client. *)
Definition httpRequestsTotal_inc (labels : list N * list N * Z) : M unit :=
  modify_registry (fun r =>
    {| httpRequestsTotal :=
         <[labels := S (default 0%nat (httpRequestsTotal r !! labels))]>
           (httpRequestsTotal r);
       httpRequestDuration := httpRequestDuration r;
       loadTestsTotal := loadTestsTotal r;
       activeConnections := activeConnections r |}).

Definition httpRequestDuration_observe (labels : list N * list N) (v : Z) : M unit :=
  modify_registry (fun r =>
    {| httpRequestsTotal := httpRequestsTotal r;
       httpRequestDuration :=
         <[labels := observe v (default empty_histogram (httpRequestDuration r !! labels))]>
           (httpRequestDuration r);
       loadTestsTotal := loadTestsTotal r;
       activeConnections := activeConnections r |}).

Definition loadTestsTotal_inc : M unit :=
  modify_registry (fun r =>
    {| httpRequestsTotal := httpRequestsTotal r;
       httpRequestDuration := httpRequestDuration r;
       loadTestsTotal := S (loadTestsTotal r);
       activeConnections := activeConnections r |}).

Definition activeConnections_add (d : Z) : M unit :=
  modify_registry (fun r =>
    {| httpRequestsTotal := httpRequestsTotal r;
       httpRequestDuration := httpRequestDuration r;
       loadTestsTotal := loadTestsTotal r;
       activeConnections := activeConnections r + d |}).

Definition activeConnections_inc : M unit := activeConnections_add 1.
Definition activeConnections_dec : M unit := activeConnections_add (-1).

(** ** The router of [src/routes/api.js] *)

Section Service.

(** [process.env.HOSTNAME || 'unknown']. *)
Variable HOSTNAME : list N.
(** [Date.prototype.toISOString] on a time in milliseconds. *)
Variable toISOString : Z -> list N.
(** [process.env.NODE_ENV === 'production']. *)
Variable production : bool.
(** Where an elapsed time in milliseconds ends in 5, its quotient by 1000
    lies half-way between two hundredths and the double nearest to it
    decides which one [toFixed(2)] prints: [tie_up] is that choice. *)
Variable tie_up : Z -> bool.

(** *** Request-tracking middleware *)

(** The middleware up to its call of [next()]. *)
Definition track (req : Request) (res : Res) : M Res :=
  let* start := Date_now in
  let* _ := activeConnections_inc in
  ret (res_on_finish
         {| l_method := method req; l_path := path req; l_start := start |} res).

(** The callback of the [finish] event; the duration is kept in
    milliseconds. *)
Definition finish_listener (res : Res) (l : Listener) : M unit :=
  let* now := Date_now in
  let duration := now - l_start l in
  let* _ := httpRequestsTotal_inc (l_method l, l_path l, statusCode res) in
  let* _ := httpRequestDuration_observe (l_method l, l_path l) duration in
  activeConnections_dec.

(** The response has been sent: each listener of [finish] runs once. *)
Fixpoint emit_finish (res : Res) (ls : list Listener) : M unit :=
  match ls with
  | [] => ret tt
  | l :: ls' => let* _ := finish_listener res l in emit_finish res ls'
  end.

(** *** GET /health *)

(** [Math.round(bytes / 1024 / 1024)]: both divisions are exact in binary
    floating point and [Math.round] rounds a half upwards. *)
Definition megabytes (bytes : N) : N := ((bytes + 524288) / 1048576)%N.

Definition health_handler (req : Request) (res : Res) : M Res :=
  let* r := redis_incr in
  let survivorCount := match r with Resolved n => n | Rejected _ => 0 end in
  let* t := Date_now in
  let* up := process_uptime in
  let* m1 := process_memoryUsage in
  let* m2 := process_memoryUsage in
  let* m3 := process_memoryUsage in
  let healthStatus :=
    VObj [ (str "status", VStr (str "healthy"));
           (str "hostname", VStr HOSTNAME);
           (str "timestamp", VStr (toISOString t));
           (str "uptime", VNum up);
           (str "survivorCount", VNum (inject_Z survivorCount));
           (str "memory",
             VObj [ (str "used", VStr (decimal (megabytes (heapUsed m1)) ++ str " MB"));
                    (str "total", VStr (decimal (megabytes (heapTotal m2)) ++ str " MB")) ]);
           (str "checks",
             VObj [ (str "server", VStr (str "running"));
                    (str "memory",
                      VStr (if (heapUsed m3 <? 500 * 1024 * 1024)%N
                            then str "ok" else str "warning")) ]) ] in
  ret (res_json healthStatus (res_status 200 res)).

(** *** GET /load *)

(** The busy loop: the clock is read before each batch, and a batch (a
    million square roots and powers of random numbers, with no effect on
    the state modelled here) runs whenever the deadline has not been
    reached. [None] when [fuel] readings did not reach the deadline. *)
Fixpoint busy_loop (fuel : nat) (endTime iterations : Z) : M (option Z) :=
  match fuel with
  | O => ret None
  | S fuel' =>
      let* now := Date_now in
      if now <? endTime then busy_loop fuel' endTime (iterations + 1)
      else ret (Some iterations)
  end.

(** [(elapsed / 1000).toFixed(2)], as a count of hundredths of a second:
    the nearest hundredth to the magnitude. *)
Definition round_hundredths (elapsed : Z) : Z :=
  let a := Z.abs elapsed in
  let q := a / 10 in
  let r := a mod 10 in
  if r <? 5 then q
  else if 5 <? r then q + 1
  else if tie_up a then q + 1 else q.

(** The text [toFixed(2)] returns. *)
Definition toFixed2 (elapsed : Z) : list N :=
  let n := round_hundredths elapsed in
  (if elapsed <? 0 then [45%N] else [])
  ++ decimal (Z.to_N (n / 100))
  ++ [46%N; digit_char (Z.to_N (n mod 100 / 10)); digit_char (Z.to_N (n mod 10))].

(** [parseFloat] of that text: the signed number of hundredths, over 100. *)
Definition parseFloat_toFixed2 (elapsed : Z) : Q :=
  Qmake (Z.sgn elapsed * round_hundredths elapsed) 100.

Definition load_message : list N :=
  str "CPU stress test completed. This simulates the " ++ [34%N] ++ str "gravity"
  ++ [34%N] ++ str " that pulls down your system. The HPA (Anti-Gravity) will scale up pods to resist this load.".

(** The response of the handler: [res.json({...})]. *)
Definition load_response (duration elapsed iterations : Z) (res : Res) : Res :=
  res_json
    (VObj [ (str "status", VStr (str "completed"));
            (str "hostname", VStr HOSTNAME);
            (str "requestedDuration", VNum (inject_Z duration));
            (str "actualDuration", VNum (parseFloat_toFixed2 elapsed));
            (str "iterations", VNum (inject_Z iterations));
            (str "message", VStr load_message) ]) res.

(** The handler once [duration] has been computed. *)
Definition load_test (fuel : nat) (duration : Z) (res : Res) : M (option Res) :=
  let* startTime := Date_now in
  let endTime := startTime + duration * 1000 in
  let* _ := loadTestsTotal_inc in
  let* _ := logger info
              (str "[LOAD] Starting CPU stress test for " ++ decimalZ duration
               ++ str " seconds on " ++ HOSTNAME) None in
  let* looped := busy_loop fuel endTime 0 in
  match looped with
  | None => ret None
  | Some iterations =>
      let* now := Date_now in
      let actualDuration := toFixed2 (now - startTime) in
      let* _ := logger info
                  (str "[LOAD] Completed CPU stress test: " ++ decimalZ iterations
                   ++ str " iterations in " ++ actualDuration ++ str "s") None in
      ret (Some (load_response duration (now - startTime) iterations res))
  end.

Definition load_handler (fuel : nat) (req : Request) (res : Res) : M (option Res) :=
  let duration := requested_duration (query_param "duration" req) in
  load_test fuel duration res.

(** *** GET /metrics *)

(** [register.contentType]. *)
Definition contentType : list N := str "text/plain; version=0.0.4; charset=utf-8".

Definition metrics_handler (req : Request) (res : Res) : M Res :=
  let res := res_set "Content-Type" contentType res in
  let* r := register_metrics in
  match r with
  | Serialized text => ret (res_end (BText text) res)
  | Failed e =>
      let* _ := logger error (str "[METRICS] Error generating metrics:") (Some e) in
      ret (res_end (BText (message e)) (res_status 500 res))
  end.

(** *** GET /ready *)

Definition ready_handler (req : Request) (res : Res) : M Res :=
  let* t := Date_now in
  ret (res_json
    (VObj [ (str "ready", VBool true);
            (str "hostname", VStr HOSTNAME);
            (str "timestamp", VStr (toISOString t)) ])
    (res_status 200 res)).

(** *** A request through the router *)

(** A handler ends the response or throws. *)
Inductive Outcome : Type :=
  | Ended (res : Res)
  | Threw (err : Error) (res : Res).

(** The global error handler of [src/app.js], which a thrown error
    reaches. *)
Definition error_handler (err : Error) (res : Res) : M Res :=
  let* _ := logger error (str "Internal Server Error") (Some err) in
  ret (res_json
    (VObj [ (str "error", VStr (str "Internal Server Error"));
            (str "message",
              VStr (if production then str "An error occurred" else message err)) ])
    (res_status 500 res)).

(** A thrown error goes to the error handler; the response is then sent. *)
Definition complete (out : Outcome) : M Res :=
  match out with
  | Ended res => ret res
  | Threw err res => error_handler err res
  end.

(** One request: the tracking middleware, the rest of the chain, and the
    [finish] event once the response has been sent. *)
Definition serve (handler : Request -> Res -> M Outcome) (req : Request) : M Res :=
  let* res := track req fresh_res in
  let* out := handler req res in
  let* res := complete out in
  let* _ := emit_finish res (on_finish res) in
  ret res.

Definition get_health : Request -> M Res :=
  serve (fun req res => let* res := health_handler req res in ret (Ended res)).

Definition get_metrics : Request -> M Res :=
  serve (fun req res => let* res := metrics_handler req res in ret (Ended res)).

Definition get_ready : Request -> M Res :=
  serve (fun req res => let* res := ready_handler req res in ret (Ended res)).

(** GET /load, whose loop needs [fuel]. *)
Definition get_load (fuel : nat) (req : Request) : M (option Res) :=
  let* res := track req fresh_res in
  let* ended := load_handler fuel req res in
  match ended with
  | None => ret None
  | Some res => let* _ := emit_finish res (on_finish res) in ret (Some res)
  end.

End Service.

(** ** The rate limiter of [src/app.js] *)

Module RateLimit.

(** [windowMs: 15 * 60 * 1000] and [max: 1000]. *)
Definition windowMs : Z := 15 * 60 * 1000.
Definition max : nat := 1000.

(** [skip: (req) => ['/health', '/ready', '/metrics'].includes(req.path)]. *)
Definition skip (req : Request) : bool :=
  bool_decide (path req ∈ [str "/health"; str "/ready"; str "/metrics"]).

(** What the memory store of the rate-limiting middleware keeps for a
    client: the hits of its current window and when that window ends. *)
Record Client : Type := { totalHits : nat; resetTime : Z }.

Inductive Verdict : Type :=
  | Next               (* the request goes on to the rest of the chain *)
  | TooManyRequests.   (* the request is answered 429 *)

(** [store.increment(key)]: a client that is new, or whose window has
    ended, starts a window at [now]; its hits go up by one. *)
Definition increment (key : list N) (now : Z) (store : gmap (list N) Client)
  : nat * gmap (list N) Client :=
  let opened := {| totalHits := 0; resetTime := now + windowMs |} in
  let c := match store !! key with
           | Some c => if resetTime c <=? now then opened else c
           | None => opened
           end in
  let c' := {| totalHits := S (totalHits c); resetTime := resetTime c |} in
  (totalHits c', <[key := c']> store).

(** The middleware [rateLimit({windowMs, max, skip})] builds, with the
    default key, the client's IP address: a skipped request passes
    uncounted, any other is counted and passes while the count is at most
    [max]. *)
Definition limiter (req : Request) (now : Z) (store : gmap (list N) Client)
  : Verdict * gmap (list N) Client :=
  if skip req then (Next, store)
  else
    let '(hits, store') := increment (ip req) now store in
    if (max <? hits)%nat then (TooManyRequests, store') else (Next, store').

(** A sequence of requests, each with its arrival time. *)
Fixpoint run (rs : list (Request * Z)) (store : gmap (list N) Client)
  : list Verdict :=
  match rs with
  | [] => []
  | (req, now) :: rs' =>
      let '(v, store') := limiter req now store in v :: run rs' store'
  end.

(** The counted requests of client [a] among [rs]. *)
Fixpoint counted (a : list N) (rs : list (Request * Z)) : nat :=
  match rs with
  | [] => 0
  | (req, _) :: rs' =>
      (if negb (skip req) && bool_decide (ip req = a) then 1 else 0)
      + counted a rs'
  end%nat.

End RateLimit.

(** ** The other routes of the router and the handlers of [src/app.js] *)

(** [data.split(sep)]: the pieces between the separators, one more than
    there are separators. *)
Fixpoint split (sep : N) (s : list N) : list (list N) :=
  match s with
  | [] => [[]]
  | c :: s' =>
      if (c =? sep)%N then [] :: split sep s'
      else match split sep s' with
           | l :: ls => (c :: l) :: ls
           | [] => [[c]]
           end
  end.

(** [line.length > 0]. *)
Definition nonempty (line : list N) : bool :=
  match line with
  | [] => false
  | _ :: _ => true
  end.

(** [l.slice(-n)]: the last [n] elements, all of them when there are fewer. *)
Definition slice_last {A : Type} (n : nat) (l : list A) : list A :=
  drop (length l - n) l.

(** [l.map(f)] where [f] has effects: left to right. *)
Fixpoint mapM {A B : Type} (f : A -> M B) (l : list A) : M (list B) :=
  match l with
  | [] => ret []
  | x :: l' =>
      let* y := f x in
      let* ys := mapM f l' in
      ret (y :: ys)
  end.

(** The log file as the handler finds it: absent ([fs.existsSync] false),
    read in full, or present and failing to be read. *)
Inductive log_file : Type :=
  | NoFile
  | LogFile (data : list N)
  | Unreadable (e : Error).

Section MoreRoutes.

Variable toISOString : Z -> list N.
(** [JSON.parse], [None] when it throws; the lines of the log are objects,
    and [null] is not among the values modelled. *)
Variable JSON_parse : list N -> option jsval.

(** The callback of [lines.map] in GET /api/logs. *)
Definition log_entry (line : list N) : M jsval :=
  match JSON_parse line with
  | Some v => ret v
  | None =>
      let* t := Date_now in
      ret (VObj [ (str "message", VStr line);
                  (str "timestamp", VStr (toISOString t)) ])
  end.

(** GET /api/logs. *)
Definition logs_handler (file : log_file) (req : Request) (res : Res) : M Outcome :=
  match file with
  | LogFile data =>
      let lines := rev (slice_last 100 (List.filter nonempty (split 10 data))) in
      let* items := mapM log_entry lines in
      ret (Ended (res_json (VArr items) res))
  | Unreadable e => ret (Threw e res)
  | NoFile =>
      let* t := Date_now in
      ret (Ended (res_json
        (VArr [ VObj [ (str "message", VStr (str "No logs found yet."));
                       (str "timestamp", VStr (toISOString t)) ] ]) res))
  end.

(** The 404 handler of [src/app.js], which a request that matches no route
    of the router reaches. *)
Definition not_found_handler (req : Request) (res : Res) : M Res :=
  let* _ := logger warn
              (str "404 Not Found: " ++ method req ++ str " " ++ path req) None in
  ret (res_json
    (VObj [ (str "error", VStr (str "Not Found"));
            (str "message",
              VStr (str "Route " ++ method req ++ str " " ++ path req
                    ++ str " not found"));
            (str "availableEndpoints",
              VArr [ VStr (str "/"); VStr (str "/health"); VStr (str "/load");
                     VStr (str "/metrics"); VStr (str "/ready");
                     VStr (str "/api-docs") ]) ])
    (res_status 404 res)).

End MoreRoutes.

(** The end of the chain for a request that matches no route. *)
Definition unknown_route (req : Request) (res : Res) : M Outcome :=
  let* res := not_found_handler req res in ret (Ended res).

(** A request that matches no route. *)
Definition get_unknown (production : bool) : Request -> M Res :=
  serve production unknown_route.

(** Requests served one after the other. *)
Fixpoint serve_all (production : bool) (handler : Request -> Res -> M Outcome)
    (reqs : list Request) : M (list Res) :=
  match reqs with
  | [] => ret []
  | req :: reqs' =>
      let* res := serve production handler req in
      let* rest := serve_all production handler reqs' in
      ret (res :: rest)
  end.

(** ** The single-file application *)

Module Legacy.

Section Handlers.

Variable HOSTNAME : list N.
Variable toISOString : Z -> list N.

(** [app.get('/health')]: the health report without the counter store. *)
Definition health_handler (req : Request) (res : Res) : M Res :=
  let* t := Date_now in
  let* up := process_uptime in
  let* m1 := process_memoryUsage in
  let* m2 := process_memoryUsage in
  let* m3 := process_memoryUsage in
  let healthStatus :=
    VObj [ (str "status", VStr (str "healthy"));
           (str "hostname", VStr HOSTNAME);
           (str "timestamp", VStr (toISOString t));
           (str "uptime", VNum up);
           (str "memory",
             VObj [ (str "used", VStr (decimal (megabytes (heapUsed m1)) ++ str " MB"));
                    (str "total", VStr (decimal (megabytes (heapTotal m2)) ++ str " MB")) ]);
           (str "checks",
             VObj [ (str "server", VStr (str "running"));
                    (str "memory",
                      VStr (if (heapUsed m3 <? 500 * 1024 * 1024)%N
                            then str "ok" else str "warning")) ]) ] in
  ret (res_json healthStatus (res_status 200 res)).

End Handlers.

End Legacy.

(** ** The dashboards *)

Module Dashboard.

(** [parseInt(data.memory.used)], in [public/app.js] and in the React
    dashboard. *)
Definition memValue (memUsed : list N) : number := parseInt (QString memUsed).

(** [Math.min((memValue / 256) * 100, 100)], the width of the memory bar in
    percent; [None] is NaN. With a whole number of megabytes the quotient
    and the product are exact in binary floating point. *)
Definition memPercent (memUsed : list N) : option Q :=
  match memValue memUsed with
  | NaN => None
  | Num v =>
      let x := (inject_Z v / 256 * 100)%Q in
      Some (if Qle_bool x 100 then x else 100%Q)
  end.

(** The [duration] parameter of the request of [runLoadTest]:
    [selectedDuration], the result of a [parseInt], inside the template
    literal of the URL. The literal writes all the digits of an integer
    below 10^21 and uses an exponent from there on: the definition is the
    string of the program for the integers a double holds exactly, of
    magnitude at most 2^53. *)
Definition duration_param (selectedDuration : number) : list N :=
  match selectedDuration with
  | NaN => str "NaN"
  | Num z => decimalZ z
  end.

(** A point of the chart of the React dashboard. *)
Record Point : Type := { time : list N; memory : number }.

(** The update of [metricsHistory]: [[...prev, point].slice(-20)]. *)
Definition push_point (prev : list Point) (p : Point) : list Point :=
  slice_last 20 (prev ++ [p]).

(** The history after the points [ps] have come in, starting empty. *)
Definition history (ps : list Point) : list Point :=
  fold_left push_point ps [].

End Dashboard.

(** ** The authentication routes of [src/routes/auth.js] *)

Module Auth.

(** What the handlers read of a user of the store. *)
Record User : Type := { id : Z; role : list N }.

(** How an awaited call settles. *)
Inductive settled (A : Type) : Type :=
  | Resolves (a : A)
  | Rejects (e : Error).
Arguments Resolves {A} a.
Arguments Rejects {A} e.

(** How [jwt.sign] with a callback ends: the callback gets the token, or
    an error, once the handler has run on; or the library reports an
    error to the callback before it returns. *)
Inductive signing : Type :=
  | SignedLater (token : list N)
  | FailedLater (e : Error)
  | FailedNow (e : Error).

(** The user model and the token library, which are not part of the
    handlers: what each call answers. *)
Record Backend : Type := {
  findOne : option jsval -> settled (option User);
  create : option jsval -> option jsval -> jsval -> settled User;
  validPassword : User -> option jsval -> settled bool;
  sign : Z -> list N -> signing
}.

(** The calls a handler makes, in order. *)
Inductive Call : Type :=
  | FindOne (username : option jsval)
  | Create (username password : option jsval) (role : jsval)
  | ValidPassword (user : User) (password : option jsval)
  | Sign (id : Z) (role : list N) (secret : list N) (expiresIn : Z).

(** [req.body], destructured: a property that is absent reads as
    [undefined]. *)
Record Credentials : Type := {
  username : option jsval;
  password : option jsval;
  requested_role : option jsval
}.

(** What a run leaves besides the response: the calls made, the lines
    logged, and an error thrown where nothing catches it. *)
Record Trace : Type := {
  calls : list Call;
  logged : list LogEntry;
  uncaught : option Error
}.

Definition no_trace : Trace := {| calls := []; logged := []; uncaught := None |}.

(** Computations of a handler: a value or a thrown error, and the trace. *)
Definition A (X : Type) : Type := Trace -> (X + Error) * Trace.

Definition pure {X : Type} (x : X) : A X := fun t => (inl x, t).

Definition throw {X : Type} (e : Error) : A X := fun t => (inr e, t).

Definition andThen {X Y : Type} (c : A X) (k : X -> A Y) : A Y :=
  fun t =>
    match c t with
    | (inl x, t') => k x t'
    | (inr e, t') => (inr e, t')
    end.

Notation "'let+' x ':=' c 'in' k" := (andThen c (fun x => k))
  (at level 10, x pattern, c at level 100, k at level 200).

(** [try { c } catch (err) { h err }]. *)
Definition try_catch {X : Type} (c : A X) (h : Error -> A X) : A X :=
  fun t =>
    match c t with
    | (inl x, t') => (inl x, t')
    | (inr e, t') => h e t'
    end.

(** [await] of a call that settles as [r]. *)
Definition await {X : Type} (c : Call) (r : settled X) : A X :=
  fun t =>
    (match r with Resolves a => inl a | Rejects e => inr e end,
     {| calls := calls t ++ [c]; logged := logged t; uncaught := uncaught t |}).

Definition log (l : level) (msg : list N) (e : option Error) : A unit :=
  fun t =>
    (inl tt,
     {| calls := calls t;
        logged := logged t ++ [{| lvl := l; text := msg; meta := e |}];
        uncaught := uncaught t |}).

Definition escape (e : Error) : A unit :=
  fun t => (inl tt, {| calls := calls t; logged := logged t; uncaught := Some e |}).

(** Truthiness of a value of the body. *)
Definition truthy (v : option jsval) : bool :=
  match v with
  | None => false
  | Some (VStr []) => false
  | Some (VNum q) => negb (Qeq_bool q 0)
  | Some (VBool b) => b
  | Some _ => true
  end.

(** [res.send(text)]. *)
Definition res_send (s : list N) (res : Res) : Res :=
  res_end (BText s) (res_set "Content-Type" (str "text/html; charset=utf-8") res).

Section Handlers.

(** [process.env.JWT_SECRET || 'dev-secret-key']. *)
Variable JWT_SECRET : list N.
(** A value of the body inside a template literal. *)
Variable show : option jsval -> list N.
Variable backend : Backend.

(** [jwt.sign(payload, JWT_SECRET, {expiresIn: 360000}, callback)] up to
    its return: an error reported at once is thrown by the callback, out
    of the call. *)
Definition jwt_sign (user : User) : A signing :=
  fun t =>
    let t' := {| calls := calls t ++ [Sign (id user) (role user) JWT_SECRET 360000];
                 logged := logged t; uncaught := uncaught t |} in
    match sign backend (id user) (role user) with
    | FailedNow e => (inr e, t')
    | pending => (inl pending, t')
    end.

(** The callback of [jwt.sign] when it runs after the handler: it answers
    with the token, or throws where nothing catches. *)
Definition signed_callback (user : User) (pending : signing) (res : Res) : A Res :=
  match pending with
  | SignedLater token =>
      pure (res_json (VObj [ (str "token", VStr token);
                             (str "role", VStr (role user)) ]) res)
  | FailedLater e | FailedNow e => let+ _ := escape e in pure res
  end.

(** POST /register. *)
Definition register (body : Credentials) (res : Res) : A Res :=
  try_catch
    (let+ user := await (FindOne (username body)) (findOne backend (username body)) in
     match user with
     | Some _ =>
         pure (res_json (VObj [ (str "msg", VStr (str "User already exists")) ])
                 (res_status 400 res))
     | None =>
         let role := if truthy (requested_role body)
                     then default (VStr (str "viewer")) (requested_role body)
                     else VStr (str "viewer") in
         let+ user := await (Create (username body) (password body) role)
                        (create backend (username body) (password body) role) in
         let+ pending := jwt_sign user in
         let+ _ := log info (str "New user registered: " ++ show (username body)) None in
         signed_callback user pending res
     end)
    (fun err =>
       let+ _ := log error (str "Registration error") (Some err) in
       pure (res_send (str "Server error") (res_status 500 res))).

(** POST /login. *)
Definition login (body : Credentials) (res : Res) : A Res :=
  try_catch
    (let+ user := await (FindOne (username body)) (findOne backend (username body)) in
     match user with
     | None =>
         pure (res_json (VObj [ (str "msg", VStr (str "Invalid Credentials")) ])
                 (res_status 400 res))
     | Some user =>
         let+ isMatch := await (ValidPassword user (password body))
                           (validPassword backend user (password body)) in
         if isMatch then
           let+ pending := jwt_sign user in
           let+ _ := log info (str "User logged in: " ++ show (username body)) None in
           signed_callback user pending res
         else
           pure (res_json (VObj [ (str "msg", VStr (str "Invalid Credentials")) ])
                   (res_status 400 res))
     end)
    (fun err =>
       let+ _ := log error (str "Login error") (Some err) in
       pure (res_send (str "Server error") (res_status 500 res))).

End Handlers.

End Auth.

(** ** Vocabulary of the statements *)

(** The world after [k] more readings of the clock. *)
Definition tick (k : nat) (w : World) : World :=
  {| wall := {| feed := feed (wall w); used := (k + used (wall w))%nat |};
     heap := heap w; uptime := uptime w; redis := redis w; prom := prom w;
     registry := registry w; logs := logs w |}.

(** The clock never goes back. *)
Definition monotone (o : Oracle Z) : Prop :=
  forall i j, (i <= j)%nat -> feed o i <= feed o j.

(** A request arriving in world [w] has its first clock reading taken by
    the tracking middleware and its second by the handler of /load, as
    [startTime]. *)
Definition startTime_of (w : World) : Z := feed (wall w) (S (used (wall w))).

(** Some reading of the clock after [startTime] is at or beyond [T]. *)
Definition passes (w : World) (T : Z) : Prop :=
  exists j, (S (used (wall w)) < j)%nat /\ T <= feed (wall w) j.

(** The code units of the decimal digits. *)
Definition is_digit (c : N) : Prop := (48 <= c <= 57)%N.

(** The response object a handler leaves. *)
Definition outcome_res (out : Outcome) : Res :=
  match out with
  | Ended res => res
  | Threw _ res => res
  end.

(** A handler that registers no [finish] listener of its own and leaves the
    request metrics alone, as every handler of the router does. *)
Definition leaves_tracking (handler : Request -> Res -> M Outcome) : Prop :=
  forall req res w,
    let '(out, w') := handler req res w in
    on_finish (outcome_res out) = on_finish res
    /\ activeConnections (registry w') = activeConnections (registry w)
    /\ httpRequestsTotal (registry w') = httpRequestsTotal (registry w)
    /\ httpRequestDuration (registry w') = httpRequestDuration (registry w).

(** A handler that throws. *)
Definition failing_handler (req : Request) (res : Res) : M Outcome :=
  ret (Threw {| message := str "boom" |} res).

(** The store of the rate limiter after the requests [pre], all of them in
    the window that starts at [t0]: each client has its counted requests as
    hits, and no window has ended. *)
Definition in_window (t0 : Z) (pre : list (Request * Z))
    (store : gmap (list N) RateLimit.Client) : Prop :=
  forall a,
    match store !! a with
    | Some c =>
        RateLimit.totalHits c = RateLimit.counted a pre
        /\ t0 + RateLimit.windowMs <= RateLimit.resetTime c
    | None => RateLimit.counted a pre = 0%nat
    end.

(** An object without its property [k]. *)
Definition without_field (k : string) (v : jsval) : jsval :=
  match v with
  | VObj fields =>
      VObj (List.filter (fun kv => negb (bool_decide (fst kv = str k))) fields)
  | _ => v
  end.


(** [ls.join(sep)]. *)
Fixpoint join_with (sep : N) (ls : list (list N)) : list N :=
  match ls with
  | [] => []
  | l :: ls' =>
      match ls' with
      | [] => l
      | _ :: _ => l ++ sep :: join_with sep ls'
      end
  end.

(** The entry of GET /api/logs for a line that is not JSON. *)
Definition raw_entry (toISOString : Z -> list N) (line : list N) (t : Z) : jsval :=
  VObj [ (str "message", VStr line); (str "timestamp", VStr (toISOString t)) ].

(** The lines that [JSON.parse] rejects. *)
Definition unparsable (JSON_parse : list N -> option jsval)
    (lines : list (list N)) : list (list N) :=
  List.filter (fun l => match JSON_parse l with None => true | Some _ => false end)
    lines.

(** The answer to a login that is turned down. *)
Definition invalid_credentials (res : Res) : Res :=
  res_json (VObj [ (str "msg", VStr (str "Invalid Credentials")) ])
    (res_status 400 res).

(** The answer to a failure of the store. *)
Definition server_error (res : Res) : Res :=
  Auth.res_send (str "Server error") (res_status 500 res).

(** A call that signs a token. *)
Definition is_sign (c : Auth.Call) : bool :=
  match c with
  | Auth.Sign _ _ _ _ => true
  | _ => false
  end.

(** A store with no user and a store with one user, whose password is
    [secret]. *)
Definition empty_store : Auth.Backend :=
  {| Auth.findOne := fun _ => Auth.Resolves None;
     Auth.create := fun _ _ _ => Auth.Resolves {| Auth.id := 1; Auth.role := str "viewer" |};
     Auth.validPassword := fun _ _ => Auth.Resolves false;
     Auth.sign := fun _ _ => Auth.SignedLater (str "token") |}.

Definition one_user_store : Auth.Backend :=
  {| Auth.findOne := fun _ =>
       Auth.Resolves (Some {| Auth.id := 1; Auth.role := str "viewer" |});
     Auth.create := fun _ _ _ => Auth.Rejects {| message := str "duplicate" |};
     Auth.validPassword := fun _ p =>
       Auth.Resolves match p with
                     | Some (VStr s) => bool_decide (s = str "secret")
                     | _ => false
                     end;
     Auth.sign := fun _ _ => Auth.SignedLater (str "token") |}.

(** A parser that knows one line. *)
Definition sample_parse (l : list N) : option jsval :=
  if bool_decide (l = str "{a}") then Some (VBool true) else None.

(** A file of three lines, the second one empty. *)
Definition sample_log : list N :=
  str "{a}" ++ [10%N] ++ [10%N] ++ str "plain" ++ [10%N].

(** Twenty-five points, numbered from 0. *)
Definition sample_points : list Dashboard.Point :=
  List.map (fun k => {| Dashboard.time := decimal (N.of_nat k);
                        Dashboard.memory := Num (Z.of_nat k) |}) (seq 0 25).

Definition broken_store : Auth.Backend :=
  {| Auth.findOne := fun _ => Auth.Rejects {| message := str "connection refused" |};
     Auth.create := fun _ _ _ => Auth.Rejects {| message := str "connection refused" |};
     Auth.validPassword := fun _ _ => Auth.Rejects {| message := str "connection refused" |};
     Auth.sign := fun _ _ => Auth.SignedLater (str "token") |}.

Definition sample_credentials (p : string) (r : option jsval) : Auth.Credentials :=
  {| Auth.username := Some (VStr (str "ada"));
     Auth.password := Some (VStr (str p));
     Auth.requested_role := r |}.

Definition sample_show (v : option jsval) : list N :=
  match v with
  | Some (VStr s) => s
  | _ => str "undefined"
  end.


(** The numbers whose digits a double holds exactly. *)
Definition safe_integer (n : number) : Prop :=
  match n with
  | NaN => True
  | Num z => Z.abs z <= 2 ^ 53
  end.

(** ** Sample inputs *)

(** A process whose clock advances one second between two readings, with
    the counter store down and the metrics serializer failing. *)
Definition sample_world : World :=
  {| wall := {| feed := fun n => 1000 * Z.of_nat n; used := 0 |};
     heap := {| feed := fun _ => {| heapUsed := 20000000; heapTotal := 40000000 |};
                used := 0 |};
     uptime := {| feed := fun _ => Qmake 12 1; used := 0 |};
     redis := {| feed := fun _ => Rejected {| message := str "Redis unavailable" |};
                 used := 0 |};
     prom := {| feed := fun _ => Failed {| message := str "boom" |}; used := 0 |};
     registry := empty_registry;
     logs := [] |}.

Definition sample_request (p : string) : Request :=
  {| method := str "GET"; path := str p; ip := str "10.0.0.7"; query := ∅ |}.

Definition sample_load (duration : string) : Request :=
  with_param "duration" (Some (QString (str duration))) (sample_request "/load").

(** A client sending 1001 requests to /load at the same instant. *)
Definition sample_burst : list (Request * Z) :=
  replicate 1001 (sample_request "/load", 0).

(** The store once the client of the samples has used up its window. *)
Definition sample_store : gmap (list N) RateLimit.Client :=
  {[ str "10.0.0.7" := {| RateLimit.totalHits := 1000; RateLimit.resetTime := 900000 |} ]}.

Definition sample_host : list N := str "pod-1".

Definition sample_iso (t : Z) : list N := decimalZ t.

Definition sample_tie (a : Z) : bool := true.

(** * Properties *)

(** ** [parseInt] and decimal numerals *)

Example parse_plain : parseInt (QString (str "12")) = Num 12.
Proof. reflexivity. Qed.
Example parse_signed : parseInt (QString (str "  -7px")) = Num (-7).
Proof. reflexivity. Qed.
Example parse_hex : parseInt (QString (str "0x1f")) = Num 31.
Proof. reflexivity. Qed.
Example parse_words : parseInt (QString (str "abc")) = NaN.
Proof. reflexivity. Qed.
Example parse_array : parseInt (QArray [QString (str "3"); QString (str "9")]) = Num 3.
Proof. reflexivity. Qed.
Example decimal_1234 : decimal 1234 = str "1234".
Proof. reflexivity. Qed.
Example decimal_0 : decimalZ 0 = str "0".
Proof. reflexivity. Qed.
Example decimal_neg : decimalZ (-50) = str "-50".
Proof. reflexivity. Qed.

Example parse_blank : parseInt (QString (str "  ")) = NaN.
Proof. reflexivity. Qed.
Example parse_missing : parseInt QUndefined = NaN.
Proof. reflexivity. Qed.
Example parse_object : parseInt QObject = NaN.
Proof. reflexivity. Qed.

Lemma is_digit_cases c :
  is_digit c ->
  (c = 48 \/ c = 49 \/ c = 50 \/ c = 51 \/ c = 52 \/ c = 53 \/ c = 54
   \/ c = 55 \/ c = 56 \/ c = 57)%N.
Proof. unfold is_digit. intros [Hlo Hhi]. lia. Qed.

Ltac digit_cases H :=
  apply is_digit_cases in H;
  repeat (destruct H as [H | H]); subst.

Lemma digit_char_is_digit d : (d < 10)%N -> is_digit (digit_char d).
Proof. unfold is_digit, digit_char. lia. Qed.

Lemma radix_digit_decimal d : (d < 10)%N -> radix_digit 10 (digit_char d) = Some d.
Proof.
  intros Hd. unfold radix_digit, digit_value, digit_char.
  replace ((48 <=? 48 + d) && (48 + d <=? 57))%N with true
    by (symmetry; apply andb_true_iff; split; apply N.leb_le; lia).
  replace (48 + d - 48)%N with d by lia.
  apply N.ltb_lt in Hd. now rewrite Hd.
Qed.

Lemma trim_start_digit c r : is_digit c -> trim_start (c :: r) = c :: r.
Proof. intros H. digit_cases H; reflexivity. Qed.

Lemma read_sign_digit c r : is_digit c -> read_sign (c :: r) = (1, c :: r).
Proof. intros H. digit_cases H; reflexivity. Qed.

Lemma read_radix_digits s : Forall is_digit s -> read_radix s = (10%N, s).
Proof.
  intros Hs. destruct Hs as [|c r Hc Hr]; [reflexivity|].
  destruct Hr as [|x r Hx Hr].
  - digit_cases Hc; reflexivity.
  - digit_cases Hc; try reflexivity. digit_cases Hx; reflexivity.
Qed.

Lemma digits_of_digits fuel : forall n acc,
  Forall is_digit acc -> Forall is_digit (digits_of fuel n acc).
Proof.
  induction fuel as [|fuel IH]; intros n acc Hacc; simpl; [exact Hacc|].
  assert (Hd : is_digit (digit_char (n mod 10)))
    by (apply digit_char_is_digit, N.mod_upper_bound; lia).
  destruct (n <? 10)%N; [|apply IH]; constructor; assumption.
Qed.

Lemma digits_of_cons fuel : forall n acc,
  exists c r, digits_of (S fuel) n acc = c :: r.
Proof.
  induction fuel as [|fuel IH]; intros n acc.
  - simpl. destruct (n <? 10)%N; eauto.
  - change (digits_of (S (S fuel)) n acc)
      with (let acc' := digit_char (n mod 10) :: acc in
            if (n <? 10)%N then acc' else digits_of (S fuel) (n / 10) acc').
    simpl. destruct (n <? 10)%N; [eauto|apply IH].
Qed.

(** Reading back the digits written by [digits_of]. *)
Lemma parse_digits_of fuel : forall n acc a,
  (n < 2 ^ N.of_nat (S fuel))%N ->
  exists k,
    parse_digits 10 (digits_of (S fuel) n acc) a
    = parse_digits 10 acc (Some (default 0 a * 10 ^ k + n)%N).
Proof.
  assert (Hone : forall n acc a, (n < 10)%N ->
            parse_digits 10 (digit_char (n mod 10) :: acc) a
            = parse_digits 10 acc (Some (default 0 a * 10 ^ 1 + n)%N)).
  { intros n acc a Hlt. cbn [parse_digits].
    rewrite N.mod_small by assumption.
    rewrite radix_digit_decimal by assumption.
    now rewrite N.pow_1_r. }
  induction fuel as [|fuel IH]; intros n acc a Hn.
  - exists 1%N. cbn [digits_of]. change (2 ^ N.of_nat 1)%N with 2%N in Hn.
    assert (Hlt : (n < 10)%N) by lia.
    pose proof Hlt as Hb. apply N.ltb_lt in Hb. rewrite Hb. now apply Hone.
  - change (digits_of (S (S fuel)) n acc)
      with (if (n <? 10)%N then digit_char (n mod 10) :: acc
            else digits_of (S fuel) (n / 10) (digit_char (n mod 10) :: acc)).
    destruct (N.ltb_spec n 10) as [Hlt|Hge].
    + exists 1%N. now apply Hone.
    + assert (Hq : (n / 10 < 2 ^ N.of_nat (S fuel))%N).
      { apply N.Div0.div_lt_upper_bound.
        rewrite (Nat2N.inj_succ (S fuel)), N.pow_succ_r' in Hn. lia. }
      destruct (IH (n / 10)%N (digit_char (n mod 10) :: acc) a Hq) as [k Hk].
      exists (N.succ k). rewrite Hk. cbn [parse_digits].
      rewrite radix_digit_decimal by (apply N.mod_upper_bound; lia).
      f_equal. f_equal. cbn [default]. rewrite N.pow_succ_r'.
      generalize (default 0%N a) (10 ^ k)%N; intros x p.
      unfold id. rewrite (N.Div0.div_mod n 10) at 3. ring.
Qed.

Lemma decimal_fuel n : (n < 2 ^ N.of_nat (S (N.to_nat (N.log2 n))))%N.
Proof.
  rewrite Nat2N.inj_succ, N2Nat.id.
  destruct n as [|p]; [reflexivity|].
  apply N.log2_spec. lia.
Qed.

Lemma parse_decimal n : parse_digits 10 (decimal n) None = Some n.
Proof.
  unfold decimal.
  destruct (parse_digits_of _ n [] None (decimal_fuel n)) as [k Hk].
  rewrite Hk. simpl. reflexivity.
Qed.

Lemma decimal_digits n : Forall is_digit (decimal n).
Proof. apply digits_of_digits. constructor. Qed.

Lemma parseInt_decimal n : parseInt (QString (decimal n)) = Num (Z.of_N n).
Proof.
  unfold parseInt. cbn [ToString].
  pose proof (decimal_digits n) as Hall.
  destruct (digits_of_cons (N.to_nat (N.log2 n)) n []) as (c & r & Hcr).
  fold (decimal n) in Hcr.
  assert (Hc : is_digit c) by (rewrite Hcr in Hall; now inversion Hall).
  rewrite Hcr, trim_start_digit, read_sign_digit by assumption.
  rewrite <- Hcr, read_radix_digits, parse_decimal by assumption.
  f_equal. lia.
Qed.

Lemma parseInt_minus_decimal n :
  parseInt (QString (45%N :: decimal n)) = Num (- Z.of_N n).
Proof.
  unfold parseInt. cbn [ToString].
  change (trim_start (45%N :: decimal n)) with (45%N :: decimal n).
  cbn [read_sign].
  rewrite read_radix_digits, parse_decimal by apply decimal_digits.
  f_equal; lia.
Qed.

(** The decimal numeral of an integer parses to that integer. *)
Lemma parseInt_decimalZ d : parseInt (QString (decimalZ d)) = Num d.
Proof.
  unfold decimalZ. destruct (Z.ltb_spec d 0).
  - rewrite parseInt_minus_decimal. f_equal. lia.
  - rewrite parseInt_decimal. f_equal. lia.
Qed.

(** ** The duration of a load test *)




Lemma requested_duration_decimal d :
  requested_duration (QString (decimalZ d)) = Z.min (if d =? 0 then 5 else d) 30.
Proof.
  unfold requested_duration. rewrite parseInt_decimalZ.
  destruct d; reflexivity.
Qed.

Lemma query_param_with k v req :
  query_param k (with_param k (Some v) req) = v.
Proof. unfold query_param, with_param. simpl. now rewrite lookup_insert_eq. Qed.

Lemma query_param_without k req :
  query_param k (with_param k None req) = QUndefined.
Proof. unfold query_param, with_param. simpl. now rewrite lookup_delete_eq. Qed.

(** ** The busy loop *)

Lemma tick_tick a b w : tick a (tick b w) = tick (a + b) w.
Proof. unfold tick. simpl. do 2 f_equal. lia. Qed.

Lemma bind_run {A B : Type} (c : M A) (k : A -> M B) w a w' :
  c w = (a, w') -> bind c k w = k a w'.
Proof. intros H. unfold bind. now rewrite H. Qed.

Lemma Date_now_run w : Date_now w = (feed (wall w) (used (wall w)), tick 1 w).
Proof. reflexivity. Qed.

Section LoadProperties.

Variable HOSTNAME : list N.
Variable tie_up : Z -> bool.

(** If the reading [n] calls from now reaches the deadline, the loop exits
    at the first reading [m] that does, having run [m] batches. *)
Lemma busy_loop_exit n : forall fuel endTime it w,
  endTime <= feed (wall w) (n + used (wall w)) ->
  (n < fuel)%nat ->
  exists m, (m <= n)%nat
    /\ endTime <= feed (wall w) (m + used (wall w))
    /\ busy_loop fuel endTime it w = (Some (it + Z.of_nat m), tick (S m) w).
Proof.
  induction n as [|n IH]; intros fuel endTime it w Hn Hfuel;
    (destruct fuel as [|fuel]; [lia|]);
    cbn [busy_loop]; rewrite (bind_run _ _ _ _ _ (Date_now_run w)).
  - exists 0%nat. split; [lia|]. split; [exact Hn|].
    simpl in Hn. apply Z.ltb_ge in Hn. rewrite Hn.
    unfold ret. f_equal. f_equal. lia.
  - destruct (Z.ltb_spec (feed (wall w) (used (wall w))) endTime) as [Hlt|Hge].
    + destruct (IH fuel endTime (it + 1) (tick 1 w)) as (m & Hm & Hexit & Hrun).
      { simpl. now replace (n + S (used (wall w)))%nat with (S n + used (wall w))%nat by lia. }
      { lia. }
      exists (S m). split; [lia|]. split.
      { simpl in Hexit. now replace (S m + used (wall w))%nat with (m + S (used (wall w)))%nat by lia. }
      rewrite Hrun, tick_tick. f_equal; [f_equal; lia|].
      f_equal. lia.
    + exists 0%nat. split; [lia|]. split; [exact Hge|].
      unfold ret. f_equal. f_equal. lia.
Qed.

(** With enough fuel the handler returns, and its response reports the
    duration it was given, the time elapsed up to a reading taken after the
    loop has seen the deadline reached, and the batches run. *)
Lemma load_test_returns duration res w n :
  feed (wall w) (used (wall w)) + duration * 1000
    <= feed (wall w) (S n + used (wall w)) ->
  exists m w', (m <= n)%nat
    /\ feed (wall w) (used (wall w)) + duration * 1000
         <= feed (wall w) (S m + used (wall w))
    /\ load_test HOSTNAME tie_up (S n) duration res w
       = (Some (load_response HOSTNAME tie_up duration
                  (feed (wall w) (S (S m) + used (wall w))
                   - feed (wall w) (used (wall w)))
                  (Z.of_nat m) res), w').
Proof.
  intros Hn. unfold load_test.
  rewrite (bind_run _ _ _ _ _ (Date_now_run w)).
  unfold bind at 1. unfold loadTestsTotal_inc at 1, modify_registry at 1.
  unfold bind at 1. unfold logger at 1.
  unfold bind at 1.
  match goal with
  | |- context [busy_loop _ ?e ?i ?w1] =>
      destruct (busy_loop_exit n (S n) e i w1) as (m & Hm & Hexit & Hrun);
        [simpl; now replace (n + S (used (wall w)))%nat
                      with (S n + used (wall w))%nat by lia
        | lia |]
  end.
  simpl in Hexit.
  replace (m + S (used (wall w)))%nat with (S m + used (wall w))%nat in Hexit by lia.
  rewrite Hrun. eexists m, _. split; [exact Hm|]. split; [exact Hexit|].
  unfold bind, Date_now, ask, logger, ret. simpl.
  replace (m + S (used (wall w)))%nat with (S (m + used (wall w)))%nat by lia.
  reflexivity.
Qed.

End LoadProperties.

(** ** GET /load *)

Lemma bind_ret_snd {A B : Type} (c : M A) (b : B) w :
  bind c (fun _ => ret b) w = (b, snd (c w)).
Proof. unfold bind, ret. now destruct (c w). Qed.

Section LoadRequests.

Variable HOSTNAME : list N.
Variable tie_up : Z -> bool.

(** The rounded hundredths are at least the whole hundredths elapsed. *)
Lemma round_hundredths_ge e : 0 <= e -> e / 10 <= round_hundredths tie_up e.
Proof.
  intros He. unfold round_hundredths. rewrite Z.abs_eq by assumption.
  destruct (e mod 10 <? 5), (5 <? e mod 10), (tie_up e); lia.
Qed.

(** A time elapsed of at least [d] seconds is reported as at least [d]. *)
Lemma parseFloat_toFixed2_ge d e :
  0 <= d -> d * 1000 <= e -> (inject_Z d <= parseFloat_toFixed2 tie_up e)%Q.
Proof.
  intros Hd He. unfold Qle, parseFloat_toFixed2, inject_Z. cbn [Qnum Qden].
  pose proof (round_hundredths_ge e ltac:(lia)) as Hr.
  assert (d * 100 <= e / 10) by (apply Z.div_le_lower_bound; lia).
  destruct (Z.eq_dec e 0) as [->|Hne].
  - assert (d = 0) by lia. subst d. reflexivity.
  - rewrite Z.sgn_pos by lia. lia.
Qed.

(** The request returns once the clock passes the deadline: the loop has
    then seen a reading at or beyond it, and the elapsed time is measured
    at the next reading. *)
Lemma get_load_returns req w :
  let d := requested_duration (query_param "duration" req) in
  passes w (startTime_of w + d * 1000) ->
  exists fuel m w',
    startTime_of w + d * 1000 <= feed (wall w) (S (S m) + used (wall w))
    /\ get_load HOSTNAME tie_up fuel req w
       = (Some (load_response HOSTNAME tie_up d
                  (feed (wall w) (S (S (S m)) + used (wall w)) - startTime_of w)
                  (Z.of_nat m) (fst (track req fresh_res w))), w').
Proof.
  intros d (j & Hj & Hpass).
  set (w1 := snd (track req fresh_res w)).
  destruct (load_test_returns HOSTNAME tie_up d (fst (track req fresh_res w)) w1
              (j - S (S (used (wall w))))) as (m & w2 & Hm & Hexit & Hrun).
  { change (feed (wall w1)) with (feed (wall w)).
    change (used (wall w1)) with (S (used (wall w))).
    fold (startTime_of w).
    now replace (S (j - S (S (used (wall w)))) + S (used (wall w)))%nat with j by lia. }
  change (feed (wall w1)) with (feed (wall w)) in Hexit, Hrun.
  change (used (wall w1)) with (S (used (wall w))) in Hexit, Hrun.
  fold (startTime_of w) in Hexit, Hrun.
  replace (S m + S (used (wall w)))%nat with (S (S m) + used (wall w))%nat
    in Hexit by lia.
  replace (S (S m) + S (used (wall w)))%nat with (S (S (S m)) + used (wall w))%nat
    in Hrun by lia.
  exists (S (j - S (S (used (wall w))))), m. eexists. split; [exact Hexit|].
  unfold get_load.
  rewrite (bind_run _ _ _ _ _ (surjective_pairing (track req fresh_res w))).
  unfold load_handler. fold d. fold w1.
  rewrite (bind_run _ _ _ _ _ Hrun).
  rewrite bind_ret_snd. reflexivity.
Qed.

(** What the response of a load test holds. *)
Lemma load_response_fields d e it res :
  statusCode (load_response HOSTNAME tie_up d e it res) = statusCode res
  /\ response_field "requestedDuration" (body (load_response HOSTNAME tie_up d e it res))
     = Some (VNum (inject_Z d))
  /\ response_field "actualDuration" (body (load_response HOSTNAME tie_up d e it res))
     = Some (VNum (parseFloat_toFixed2 tie_up e))
  /\ response_field "iterations" (body (load_response HOSTNAME tie_up d e it res))
     = Some (VNum (inject_Z it)).
Proof. repeat split. Qed.

(** With a clock that never goes back, the time reported is at least the
    duration requested. *)
Lemma get_load_elapsed req w :
  let d := requested_duration (query_param "duration" req) in
  0 <= d ->
  monotone (wall w) ->
  passes w (startTime_of w + d * 1000) ->
  exists fuel res w' a,
    get_load HOSTNAME tie_up fuel req w = (Some res, w')
    /\ statusCode res = 200
    /\ response_field "requestedDuration" (body res) = Some (VNum (inject_Z d))
    /\ response_field "actualDuration" (body res) = Some (VNum a)
    /\ (inject_Z d <= a)%Q.
Proof.
  intros d Hd Hmono Hpass.
  destruct (get_load_returns req w Hpass) as (fuel & m & w' & Hexit & Hrun).
  fold d in Hexit, Hrun.
  eexists fuel, _, w', _. split; [exact Hrun|].
  destruct (load_response_fields d
              (feed (wall w) (S (S (S m)) + used (wall w)) - startTime_of w)
              (Z.of_nat m) (fst (track req fresh_res w))) as (Hs & Hr & Ha & _).
  split; [rewrite Hs; reflexivity|]. split; [exact Hr|]. split; [exact Ha|].
  apply parseFloat_toFixed2_ge; [exact Hd|].
  pose proof (Hmono (S (S m) + used (wall w))%nat (S (S (S m)) + used (wall w))%nat
                ltac:(lia)).
  lia.
Qed.

(** The handler reads the request only through its duration, its method
    and its path. *)
Lemma get_load_same_duration fuel req1 req2 w :
  method req1 = method req2 ->
  path req1 = path req2 ->
  requested_duration (query_param "duration" req1)
  = requested_duration (query_param "duration" req2) ->
  get_load HOSTNAME tie_up fuel req1 w = get_load HOSTNAME tie_up fuel req2 w.
Proof.
  intros Hm Hp Hd. unfold get_load, load_handler, track.
  now rewrite Hm, Hp, Hd.
Qed.

End LoadRequests.




Example load_minus_5 :
  requested_duration (query_param "duration" (sample_load "-5")) = -5.
Proof. reflexivity. Qed.

(** C2. For every integer [d] from 1 to 30, [GET /load?duration=d] is
    answered with [requestedDuration] equal to [d] and an [actualDuration]
    of at least [d]: the loop leaves only on a clock reading at or after
    the deadline, and the elapsed time is read after that. The clock is one
    that never goes back and that passes the deadline. *)
Theorem load_runs_requested_duration HOSTNAME tie_up d req w :
  1 <= d <= 30 ->
  query_param "duration" req = QString (decimalZ d) ->
  monotone (wall w) ->
  passes w (startTime_of w + d * 1000) ->
  exists fuel res w' a,
    get_load HOSTNAME tie_up fuel req w = (Some res, w')
    /\ response_field "requestedDuration" (body res) = Some (VNum (inject_Z d))
    /\ response_field "actualDuration" (body res) = Some (VNum a)
    /\ (inject_Z d <= a)%Q.
Proof.
  intros Hd Hq Hmono Hpass.
  assert (Hreq : requested_duration (query_param "duration" req) = d).
  { rewrite Hq, requested_duration_decimal.
    destruct (Z.eqb_spec d 0); lia. }
  destruct (get_load_elapsed HOSTNAME tie_up req w) as (fuel & res & w' & a & H);
    rewrite ?Hreq; try assumption; [lia|].
  rewrite Hreq in H. destruct H as (Hrun & _ & Hr & Ha & Hle).
  now exists fuel, res, w', a.
Qed.

Lemma sample_clock_monotone : monotone (wall sample_world).
Proof. intros i j Hij. simpl. lia. Qed.

Lemma load_runs_requested_duration_witness :
  exists fuel res w' a,
    get_load sample_host sample_tie fuel (sample_load "2") sample_world
    = (Some res, w')
    /\ response_field "requestedDuration" (body res) = Some (VNum (inject_Z 2))
    /\ response_field "actualDuration" (body res) = Some (VNum a)
    /\ (inject_Z 2 <= a)%Q.
Proof.
  apply (load_runs_requested_duration sample_host sample_tie 2
           (sample_load "2") sample_world).
  - lia.
  - reflexivity.
  - exact sample_clock_monotone.
  - exists 3%nat. split; [simpl; lia|]. apply Z.leb_le. reflexivity.
Defined.

(** C6. [GET /load?duration=d] with [d] above 30, such as 100, is answered
    with status 200 and [requestedDuration] 30. *)
Theorem load_duration_clamped HOSTNAME tie_up d req w :
  30 < d ->
  query_param "duration" req = QString (decimalZ d) ->
  passes w (startTime_of w + 30 * 1000) ->
  exists fuel res w',
    get_load HOSTNAME tie_up fuel req w = (Some res, w')
    /\ statusCode res = 200
    /\ response_field "requestedDuration" (body res) = Some (VNum (inject_Z 30)).
Proof.
  intros Hd Hq Hpass.
  assert (Hreq : requested_duration (query_param "duration" req) = 30).
  { rewrite Hq, requested_duration_decimal.
    destruct (Z.eqb_spec d 0); lia. }
  destruct (get_load_returns HOSTNAME tie_up req w) as (fuel & m & w' & _ & Hrun);
    rewrite ?Hreq; [assumption|].
  rewrite Hreq in Hrun.
  eexists fuel, _, w'. split; [exact Hrun|]. split; reflexivity.
Qed.

Lemma load_duration_clamped_witness :
  exists fuel res w',
    get_load sample_host sample_tie fuel (sample_load "100") sample_world
    = (Some res, w')
    /\ statusCode res = 200
    /\ response_field "requestedDuration" (body res) = Some (VNum (inject_Z 30)).
Proof.
  apply (load_duration_clamped sample_host sample_tie 100
           (sample_load "100") sample_world).
  - lia.
  - reflexivity.
  - exists 31%nat. split; [simpl; lia|]. apply Z.leb_le. reflexivity.
Defined.



Example load_default_answer :
  response_field "requestedDuration"
    (body (default fresh_res
       (fst (get_load sample_host sample_tie 10 (sample_request "/load") sample_world))))
  = Some (VNum (inject_Z 5)).
Proof. vm_compute. reflexivity. Qed.

(** C9. [GET /load?duration=0] runs exactly as the request without the
    parameter: the parsed 0 is falsy and gives way to the default, so the
    answer has [requestedDuration] 5 and, on a clock that never goes back,
    an [actualDuration] of at least 5. A negative integer is not replaced
    by the default and is not clamped: the duration stays negative, and
    down to -2^53, as far as a double is exact, it is the integer that was
    sent. *)
Theorem load_zero_duration HOSTNAME tie_up req w :
  (forall fuel,
     get_load HOSTNAME tie_up fuel
       (with_param "duration" (Some (QString (str "0"))) req) w
     = get_load HOSTNAME tie_up fuel (with_param "duration" None req) w)
  /\ (monotone (wall w) ->
      passes w (startTime_of w + 5 * 1000) ->
      exists fuel res w' a,
        get_load HOSTNAME tie_up fuel
          (with_param "duration" (Some (QString (str "0"))) req) w
        = (Some res, w')
        /\ response_field "requestedDuration" (body res) = Some (VNum (inject_Z 5))
        /\ response_field "actualDuration" (body res) = Some (VNum a)
        /\ (inject_Z 5 <= a)%Q)
  /\ (forall n, n < 0 -> requested_duration (QString (decimalZ n)) < 0)
  /\ (forall n, - 2 ^ 53 <= n < 0 ->
        requested_duration (QString (decimalZ n)) = n).
Proof.
  split; [|split; [|split]].
  - intros fuel. apply get_load_same_duration; try reflexivity.
    now rewrite query_param_without, query_param_with.
  - intros Hmono Hpass.
    set (req0 := with_param "duration" (Some (QString (str "0"))) req).
    assert (Hreq : requested_duration (query_param "duration" req0) = 5)
      by (unfold req0; now rewrite query_param_with).
    destruct (get_load_elapsed HOSTNAME tie_up req0 w) as (fuel & res & w' & a & H);
      rewrite ?Hreq; try assumption; [lia|].
    rewrite Hreq in H. destruct H as (Hrun & _ & Hr & Ha & Hle).
    now exists fuel, res, w', a.
  - intros n Hn. rewrite requested_duration_decimal.
    destruct (Z.eqb_spec n 0); lia.
  - intros n [_ Hn]. rewrite requested_duration_decimal.
    destruct (Z.eqb_spec n 0); lia.
Qed.

Lemma load_zero_duration_witness :
  (exists fuel res w' a,
     get_load sample_host sample_tie fuel
       (with_param "duration" (Some (QString (str "0"))) (sample_request "/load"))
       sample_world
     = (Some res, w')
     /\ response_field "requestedDuration" (body res) = Some (VNum (inject_Z 5))
     /\ response_field "actualDuration" (body res) = Some (VNum a)
     /\ (inject_Z 5 <= a)%Q)
  /\ requested_duration (QString (decimalZ (-7))) < 0
  /\ requested_duration (QString (decimalZ (-7))) = -7.
Proof.
  split; [|split].
  - apply (load_zero_duration sample_host sample_tie
             (sample_request "/load") sample_world).
    + exact sample_clock_monotone.
    + exists 6%nat. split; [simpl; lia|]. apply Z.leb_le. reflexivity.
  - apply (load_zero_duration sample_host sample_tie
             (sample_request "/load") sample_world).
    lia.
  - apply (load_zero_duration sample_host sample_tie
             (sample_request "/load") sample_world).
    lia.
Defined.

Example load_zero_answer :
  let res := default fresh_res
    (fst (get_load sample_host sample_tie 10 (sample_load "0") sample_world)) in
  response_field "requestedDuration" (body res) = Some (VNum (inject_Z 5))
  /\ response_field "iterations" (body res) = Some (VNum (inject_Z 4)).
Proof. vm_compute. split; reflexivity. Qed.

(** ** GET /health *)

(** Runs the handlers and the effects of a request on a symbolic world. *)
Ltac run_request :=
  cbv beta iota zeta delta
    [get_health get_metrics get_ready serve complete error_handler track
     health_handler metrics_handler ready_handler emit_finish finish_listener
     redis_incr register_metrics Date_now process_uptime process_memoryUsage
     logger httpRequestsTotal_inc httpRequestDuration_observe
     activeConnections_inc activeConnections_dec activeConnections_add
     modify_registry ask bind ret outcome_res failing_handler
     res_json res_end res_set res_status res_on_finish fresh_res
     fst snd app statusCode headers body on_finish
     wall heap uptime redis prom registry logs feed used
     httpRequestsTotal httpRequestDuration loadTestsTotal activeConnections] in *.

(** Names the parts of a world. *)
Ltac open_world w :=
  destruct w as [[? ?] [? ?] [? ?] [? ?] [? ?] [? ? ? ?] ?].

(** C3. [GET /health] is always answered with status 200 and [status]
    [healthy]; the [survivorCount] of the answer is what the counter store
    returned, and 0 when the increment failed. *)
Theorem health_always_healthy HOSTNAME toISOString production req w :
  let res := fst (get_health HOSTNAME toISOString production req w) in
  statusCode res = 200
  /\ response_field "status" (body res) = Some (VStr (str "healthy"))
  /\ response_field "survivorCount" (body res)
     = Some (VNum (inject_Z match feed (redis w) (used (redis w)) with
                            | Resolved n => n
                            | Rejected _ => 0
                            end)).
Proof.
  open_world w. run_request.
  match goal with |- context [match ?r with Resolved _ => _ | Rejected _ => _ end] =>
    destruct r
  end; repeat split.
Qed.

Example health_counter_down :
  let res := fst (get_health sample_host sample_iso false
                    (sample_request "/health") sample_world) in
  statusCode res = 200
  /\ response_field "survivorCount" (body res) = Some (VNum (inject_Z 0)).
Proof. vm_compute. split; reflexivity. Qed.

(** C7, as amended. In the answer of [GET /health] the fields [used] and
    [total] of [memory] are strings: the heap size in bytes over 2^20,
    rounded to the nearest integer, in decimal, followed by [ MB]. *)
Theorem health_memory_strings HOSTNAME toISOString production req w :
  let res := fst (get_health HOSTNAME toISOString production req w) in
  let m1 := feed (heap w) (used (heap w)) in
  let m2 := feed (heap w) (S (used (heap w))) in
  exists mem,
    response_field "memory" (body res) = Some mem
    /\ field "used" mem = Some (VStr (decimal (megabytes (heapUsed m1)) ++ str " MB"))
    /\ field "total" mem = Some (VStr (decimal (megabytes (heapTotal m2)) ++ str " MB")).
Proof.
  open_world w. run_request. eexists. repeat split.
Qed.

(** C7, as stated, fails: with 20000000 bytes of heap in use the field
    [used] is the string [19 MB], not an integer. *)
Lemma health_memory_not_integer :
  let res := fst (get_health sample_host sample_iso false
                    (sample_request "/health") sample_world) in
  exists mem,
    response_field "memory" (body res) = Some mem
    /\ field "used" mem = Some (VStr (str "19 MB"))
    /\ field "total" mem = Some (VStr (str "38 MB"))
    /\ is_integer (VStr (str "19 MB")) = false
    /\ is_integer (VStr (str "38 MB")) = false.
Proof. vm_compute. eexists. repeat split. Qed.

(** ** GET /metrics *)

(** C8. [GET /metrics] calls the serializer once. When it succeeds the
    answer has status 200 and the serialized registry as its body; when it
    fails the answer has status 500 and the message of the error, and
    nothing else, as its body. *)
Theorem metrics_answer production req w :
  let '(res, w') := get_metrics production req w in
  used (prom w') = S (used (prom w))
  /\ match feed (prom w) (used (prom w)) with
     | Serialized text => statusCode res = 200 /\ body res = Some (BText text)
     | Failed e => statusCode res = 500 /\ body res = Some (BText (message e))
     end.
Proof.
  open_world w. run_request.
  match goal with |- context [match ?r with Serialized _ => _ | Failed _ => _ end] =>
    destruct r
  end; repeat split.
Qed.

Example metrics_failure :
  let res := fst (get_metrics false (sample_request "/metrics") sample_world) in
  statusCode res = 500 /\ body res = Some (BText (str "boom")).
Proof. vm_compute. split; reflexivity. Qed.

(** ** Request tracking *)

Lemma health_leaves_tracking HOSTNAME toISOString :
  leaves_tracking (fun req res =>
    let* res := health_handler HOSTNAME toISOString req res in ret (Ended res)).
Proof. intros req res w. open_world w. run_request. repeat split. Qed.

Lemma metrics_leaves_tracking :
  leaves_tracking (fun req res =>
    let* res := metrics_handler req res in ret (Ended res)).
Proof.
  intros req res w. open_world w. run_request.
  match goal with |- context [match ?r with Serialized _ => _ | Failed _ => _ end] =>
    destruct r
  end; repeat split.
Qed.

Lemma ready_leaves_tracking HOSTNAME toISOString :
  leaves_tracking (fun req res =>
    let* res := ready_handler HOSTNAME toISOString req res in ret (Ended res)).
Proof. intros req res w. open_world w. run_request. repeat split. Qed.

Lemma failing_leaves_tracking : leaves_tracking failing_handler.
Proof. intros req res w. open_world w. run_request. repeat split. Qed.

(** C4. A request through the router raises the gauge of connections by
    one when it starts. When its response completes, whether the handler
    ended it or threw and the error handler answered 500, the counter of
    requests under (method, path, status) has gone up by exactly one, the
    histogram under (method, path) holds exactly one more observation, the
    time from the start to the completion, and the gauge is back to its
    value before the request. *)
Theorem tracking_once production handler req w :
  leaves_tracking handler ->
  let start := feed (wall w) (used (wall w)) in
  let '(res0, w1) := track req fresh_res w in
  let '(out, w2) := handler req res0 w1 in
  let finished := feed (wall w2) (used (wall w2)) in
  let '(res, w') := serve production handler req w in
  let key := (method req, path req, statusCode res) in
  let labels := (method req, path req) in
  activeConnections (registry w1) = activeConnections (registry w) + 1
  /\ statusCode res = match out with Ended r => statusCode r | Threw _ _ => 500 end
  /\ httpRequestsTotal (registry w')
     = <[key := S (default 0%nat (httpRequestsTotal (registry w) !! key))]>
         (httpRequestsTotal (registry w))
  /\ httpRequestDuration (registry w')
     = <[labels := observe (finished - start)
                     (default empty_histogram
                        (httpRequestDuration (registry w) !! labels))]>
         (httpRequestDuration (registry w))
  /\ activeConnections (registry w') = activeConnections (registry w).
Proof.
  intros Hframe start. subst start.
  open_world w. run_request.
  match goal with
  | |- context [handler req ?r ?v] =>
      specialize (Hframe req r v); destruct (handler req r v) as [out w2]
  end.
  open_world w2. run_request. destruct Hframe as (Hon & Hg & Hc & Hh).
  destruct out as [r|err r]; destruct r as [code hs b fin];
    run_request; subst; repeat split; lia.
Qed.

Lemma tracking_once_witness :
  leaves_tracking failing_handler
  /\ let start := feed (wall sample_world) (used (wall sample_world)) in
     let '(res0, w1) := track (sample_request "/boom") fresh_res sample_world in
     let '(out, w2) := failing_handler (sample_request "/boom") res0 w1 in
     let finished := feed (wall w2) (used (wall w2)) in
     let '(res, w') := serve false failing_handler (sample_request "/boom") sample_world in
     let key := (method (sample_request "/boom"), path (sample_request "/boom"),
                 statusCode res) in
     let labels := (method (sample_request "/boom"), path (sample_request "/boom")) in
     activeConnections (registry w1) = activeConnections (registry sample_world) + 1
     /\ statusCode res = match out with Ended r => statusCode r | Threw _ _ => 500 end
     /\ httpRequestsTotal (registry w')
        = <[key := S (default 0%nat (httpRequestsTotal (registry sample_world) !! key))]>
            (httpRequestsTotal (registry sample_world))
     /\ httpRequestDuration (registry w')
        = <[labels := observe (finished - start)
                        (default empty_histogram
                           (httpRequestDuration (registry sample_world) !! labels))]>
            (httpRequestDuration (registry sample_world))
     /\ activeConnections (registry w') = activeConnections (registry sample_world).
Proof.
  assert (H : leaves_tracking failing_handler)
    by (intros req res w; cbv; repeat split).
  split; [exact H|].
  exact (tracking_once false failing_handler (sample_request "/boom") sample_world H).
Defined.

Example tracking_failure :
  let '(res, w') := serve false failing_handler (sample_request "/boom") sample_world in
  statusCode res = 500
  /\ activeConnections (registry w') = 0
  /\ httpRequestsTotal (registry w') !! (str "GET", str "/boom", 500) = Some 1%nat
  /\ (observations <$> httpRequestDuration (registry w') !! (str "GET", str "/boom"))
     = Some 1%nat.
Proof. vm_compute. repeat split. Qed.

(** ** The rate limiter *)

Module RateLimitFacts.
Import RateLimit.

Lemma skip_spec req :
  skip req = true <-> path req ∈ [str "/health"; str "/ready"; str "/metrics"].
Proof. unfold skip. apply bool_decide_eq_true. Qed.

Lemma counted_app a l1 l2 : counted a (l1 ++ l2) = (counted a l1 + counted a l2)%nat.
Proof.
  induction l1 as [|[req t] l1 IH]; simpl; [reflexivity|]. rewrite IH. lia.
Qed.

Lemma in_window_empty t0 : in_window t0 [] ∅.
Proof. intros a. now rewrite lookup_empty. Qed.

(** One request inside the window: its verdict, and the store after it. *)
Lemma limiter_in_window t0 pre store req t :
  in_window t0 pre store ->
  t0 <= t < t0 + windowMs ->
  fst (limiter req t store)
  = (if skip req || (counted (ip req) pre <? 1000)%nat
     then Next else TooManyRequests)
  /\ in_window t0 (pre ++ [(req, t)]) (snd (limiter req t store)).
Proof.
  intros Hinv Ht. unfold limiter.
  destruct (skip req) eqn:Hskip; simpl.
  - split; [reflexivity|]. intros a. specialize (Hinv a).
    rewrite counted_app. simpl. rewrite Hskip. simpl.
    now rewrite !Nat.add_0_r.
  - unfold increment.
    pose proof (Hinv (ip req)) as Hc.
    set (c := match store !! ip req with
              | Some c => if resetTime c <=? t
                          then {| totalHits := 0; resetTime := t + windowMs |} else c
              | None => {| totalHits := 0; resetTime := t + windowMs |}
              end).
    assert (Hhits : totalHits c = counted (ip req) pre
                    /\ t0 + windowMs <= resetTime c).
    { subst c. destruct (store !! ip req) as [c0|].
      - destruct Hc as [Hh Hr].
        destruct (Z.leb_spec (resetTime c0) t); [lia|]. now split.
      - simpl. split; [now rewrite Hc | lia]. }
    destruct Hhits as [Hh Hr]. simpl. rewrite Hh. split.
    + unfold max. destruct (Nat.ltb_spec 1000 (S (counted (ip req) pre)));
        destruct (Nat.ltb_spec (counted (ip req) pre) 1000); try lia; reflexivity.
    + assert (Hst : forall s : gmap (list N) Client,
                s = <[ip req := {| totalHits := S (counted (ip req) pre);
                                   resetTime := resetTime c |}]> store ->
                in_window t0 (pre ++ [(req, t)]) s).
      { intros s -> a. rewrite counted_app. simpl. rewrite Hskip. simpl.
        destruct (decide (ip req = a)) as [<-|Hne].
        - rewrite lookup_insert_eq. simpl.
          rewrite bool_decide_eq_true_2 by reflexivity. split; [lia|exact Hr].
        - rewrite lookup_insert_ne by assumption.
          rewrite bool_decide_eq_false_2 by assumption.
          specialize (Hinv a). now rewrite !Nat.add_0_r. }
      destruct (max <? S (counted (ip req) pre))%nat; simpl; now apply Hst.
Qed.

Lemma run_in_window t0 rs : forall pre store,
  in_window t0 pre store ->
  Forall (fun rt => t0 <= snd rt < t0 + windowMs) rs ->
  forall i req t,
    rs !! i = Some (req, t) ->
    run rs store !! i
    = Some (if skip req || (counted (ip req) (pre ++ take i rs) <? 1000)%nat
            then Next else TooManyRequests).
Proof.
  induction rs as [|[req0 t0'] rs IH]; intros pre store Hinv Hall i req t Hi.
  - now rewrite lookup_nil in Hi.
  - inversion Hall as [|? ? Ht Hrest]; subst.
    destruct (limiter_in_window t0 pre store req0 t0' Hinv Ht) as [Hv Hnext].
    cbn [run]. destruct (limiter req0 t0' store) as [v store'].
    simpl in Hv, Hnext. destruct i as [|i].
    + simpl in Hi. injection Hi as -> ->. simpl. rewrite app_nil_r. now rewrite Hv.
    + simpl in Hi. simpl.
      rewrite (IH _ _ Hnext Hrest i req t Hi).
      now rewrite <- app_assoc.
Qed.

(** Any path but the three of the monitoring is not skipped. *)
Lemma skip_other req :
  path req ∉ [str "/health"; str "/ready"; str "/metrics"] -> skip req = false.
Proof. intros H. unfold skip. now apply bool_decide_eq_false_2. Qed.

Lemma counted_replicate req t n :
  skip req = false -> counted (ip req) (replicate n (req, t)) = n.
Proof.
  intros Hskip. induction n as [|n IH]; [reflexivity|].
  cbn [replicate counted]. rewrite Hskip, IH.
  now rewrite bool_decide_eq_true_2 by reflexivity.
Qed.

(** A counted request of a client inside its window. *)
Lemma limiter_counts req now store c :
  skip req = false ->
  store !! ip req = Some c ->
  now < resetTime c ->
  limiter req now store
  = (if (totalHits c <? 1000)%nat then Next else TooManyRequests,
     <[ip req := {| totalHits := S (totalHits c); resetTime := resetTime c |}]> store).
Proof.
  intros Hskip Hc Hnow. unfold limiter, increment. rewrite Hskip, Hc.
  apply Z.leb_gt in Hnow. rewrite Hnow. cbn [totalHits resetTime]. unfold max.
  destruct (Nat.ltb_spec 1000 (S (totalHits c)));
    destruct (Nat.ltb_spec (totalHits c) 1000); try lia; reflexivity.
Qed.

(** A counted request of a client that is new or whose window has ended. *)
Lemma limiter_opens req now store :
  skip req = false ->
  match store !! ip req with
  | Some c => resetTime c <= now
  | None => True
  end ->
  limiter req now store
  = (Next, <[ip req := {| totalHits := 1; resetTime := now + windowMs |}]> store).
Proof.
  intros Hskip Hc. unfold limiter, increment. rewrite Hskip.
  destruct (store !! ip req) as [c|]; [|reflexivity].
  apply Z.leb_le in Hc. now rewrite Hc.
Qed.

(** One client sending the same request [n] times at the same instant. *)
Lemma run_burst req t n i :
  skip req = false ->
  (i < n)%nat ->
  run (replicate n (req, t)) ∅ !! i
  = Some (if (i <? 1000)%nat then Next else TooManyRequests).
Proof.
  intros Hskip Hi.
  rewrite (run_in_window t (replicate n (req, t)) [] ∅ (in_window_empty t)
             ltac:(apply Forall_replicate; unfold windowMs; simpl; lia)
             i req t (lookup_replicate_2 _ _ _ Hi)).
  rewrite Hskip. cbn [orb app]. rewrite take_replicate, Nat.min_l by lia.
  now rewrite counted_replicate.
Qed.

End RateLimitFacts.

(** C10. The rate limiter allows 1000 requests in a window of 15 minutes
    and skips exactly the paths /health, /ready and /metrics. A request to
    one of these always passes, whatever the store holds, and is not
    counted. A request to any other path is counted for its IP address:
    inside the window of the client it passes when the client had fewer
    than 1000 counted requests and is answered 429 otherwise, so of [n]
    requests a client sends at the same instant the first 1000 pass and
    the others do not. Among requests that all arrive within one window of
    a freshly started limiter, a request to any other path passes exactly
    when fewer than 1000 counted requests of the same IP address came
    before it. The first counted request of a client, and the next one
    once its window has ended, passes and opens a new window. The
    behaviour of the middleware is that of express-rate-limit 7 with its
    memory store. *)
Theorem rate_limit_per_client :
  RateLimit.windowMs = 900000
  /\ RateLimit.max = 1000%nat
  /\ (forall req,
        RateLimit.skip req = true
        <-> path req = str "/health" \/ path req = str "/ready"
            \/ path req = str "/metrics")
  /\ (forall req now store,
        path req ∈ [str "/health"; str "/ready"; str "/metrics"] ->
        RateLimit.limiter req now store = (RateLimit.Next, store))
  /\ (forall req now store c,
        path req ∉ [str "/health"; str "/ready"; str "/metrics"] ->
        store !! ip req = Some c ->
        now < RateLimit.resetTime c ->
        RateLimit.limiter req now store
        = (if (RateLimit.totalHits c <? 1000)%nat
           then RateLimit.Next else RateLimit.TooManyRequests,
           <[ip req := {| RateLimit.totalHits := S (RateLimit.totalHits c);
                          RateLimit.resetTime := RateLimit.resetTime c |}]> store))
  /\ (forall req t n i,
        path req ∉ [str "/health"; str "/ready"; str "/metrics"] ->
        (i < n)%nat ->
        RateLimit.run (replicate n (req, t)) ∅ !! i
        = Some (if (i <? 1000)%nat
                then RateLimit.Next else RateLimit.TooManyRequests))
  /\ (forall t0 rs,
        Forall (fun rt => t0 <= snd rt < t0 + RateLimit.windowMs) rs ->
        forall i req t,
          rs !! i = Some (req, t) ->
          RateLimit.run rs ∅ !! i
          = Some (if RateLimit.skip req
                     || (RateLimit.counted (ip req) (take i rs) <? 1000)%nat
                  then RateLimit.Next else RateLimit.TooManyRequests))
  /\ (forall req now store,
        path req ∉ [str "/health"; str "/ready"; str "/metrics"] ->
        match store !! ip req with
        | Some c => RateLimit.resetTime c <= now
        | None => True
        end ->
        RateLimit.limiter req now store
        = (RateLimit.Next,
           <[ip req := {| RateLimit.totalHits := 1;
                          RateLimit.resetTime := now + RateLimit.windowMs |}]> store)).
Proof.
  split; [reflexivity|]. split; [reflexivity|].
  split; [|split; [|split; [|split; [|split]]]].
  - intros req. rewrite RateLimitFacts.skip_spec.
    rewrite !elem_of_cons, elem_of_nil. tauto.
  - intros req now store Hpath. unfold RateLimit.limiter.
    apply RateLimitFacts.skip_spec in Hpath. now rewrite Hpath.
  - intros req now store c Hpath.
    apply RateLimitFacts.limiter_counts. now apply RateLimitFacts.skip_other.
  - intros req t n i Hpath.
    apply RateLimitFacts.run_burst. now apply RateLimitFacts.skip_other.
  - intros t0 rs Hall i req t Hi.
    exact (RateLimitFacts.run_in_window t0 rs [] ∅
             (RateLimitFacts.in_window_empty t0) Hall i req t Hi).
  - intros req now store Hpath.
    apply RateLimitFacts.limiter_opens. now apply RateLimitFacts.skip_other.
Qed.

Lemma rate_limit_per_client_witness :
  RateLimit.limiter (sample_request "/health") 0 ∅ = (RateLimit.Next, ∅)
  /\ RateLimit.limiter (sample_request "/load") 5 sample_store
     = (RateLimit.TooManyRequests,
        <[ip (sample_request "/load")
            := {| RateLimit.totalHits := 1001; RateLimit.resetTime := 900000 |}]>
          sample_store)
  /\ RateLimit.run (replicate 1001 (sample_request "/load", 0)) ∅ !! 1000%nat
     = Some RateLimit.TooManyRequests
  /\ RateLimit.run sample_burst ∅ !! 1000%nat
     = Some (if RateLimit.skip (sample_request "/load")
                || (RateLimit.counted (ip (sample_request "/load"))
                      (take 1000 sample_burst) <? 1000)%nat
             then RateLimit.Next else RateLimit.TooManyRequests)
  /\ RateLimit.limiter (sample_request "/load") 900000 sample_store
     = (RateLimit.Next,
        <[ip (sample_request "/load")
            := {| RateLimit.totalHits := 1;
                  RateLimit.resetTime := 900000 + RateLimit.windowMs |}]>
          sample_store).
Proof.
  assert (Hload : path (sample_request "/load")
                  ∉ [str "/health"; str "/ready"; str "/metrics"]).
  { intros H. apply RateLimitFacts.skip_spec in H. discriminate H. }
  pose proof rate_limit_per_client
    as (_ & _ & _ & Hskip & Hcount & Hburst & Hrun & Hopen).
  split; [|split; [|split; [|split]]].
  - apply Hskip.
    apply (proj1 (RateLimitFacts.skip_spec (sample_request "/health"))).
    reflexivity.
  - apply (Hcount (sample_request "/load") 5 sample_store
             {| RateLimit.totalHits := 1000; RateLimit.resetTime := 900000 |} Hload).
    + reflexivity.
    + simpl. lia.
  - apply (Hburst (sample_request "/load") 0 1001%nat 1000%nat Hload). lia.
  - apply (Hrun 0 sample_burst) with (t := 0).
    + apply Forall_replicate. simpl. unfold RateLimit.windowMs. lia.
    + reflexivity.
  - apply (Hopen (sample_request "/load") 900000 sample_store Hload).
    vm_compute. discriminate.
Defined.

Example burst_first_thousand :
  RateLimit.run sample_burst ∅ !! 999%nat = Some RateLimit.Next.
Proof. vm_compute. reflexivity. Qed.

Example burst_one_too_many :
  RateLimit.run sample_burst ∅ !! 1000%nat = Some RateLimit.TooManyRequests.
Proof. vm_compute. reflexivity. Qed.

Example probe_after_burst :
  RateLimit.limiter (sample_request "/health") 0
    (<[str "10.0.0.7" := {| RateLimit.totalHits := 5000; RateLimit.resetTime := 900000 |}]> ∅)
  = (RateLimit.Next,
     <[str "10.0.0.7" := {| RateLimit.totalHits := 5000; RateLimit.resetTime := 900000 |}]> ∅).
Proof. reflexivity. Qed.

(** * Further properties of the program *)

(** ** What [parseInt] ignores *)

Lemma digits_of_app fuel : forall n acc,
  digits_of fuel n acc = digits_of fuel n [] ++ acc.
Proof.
  induction fuel as [|fuel IH]; intros n acc; [reflexivity|].
  cbn [digits_of]. destruct (n <? 10)%N; [reflexivity|].
  rewrite (IH _ (_ :: acc)), (IH _ [_]), <- app_assoc. reflexivity.
Qed.

Lemma radix_digit_not_decimal c : ~ is_digit c -> radix_digit 10 c = None.
Proof.
  unfold is_digit, radix_digit, digit_value. intros Hc.
  destruct ((48 <=? c) && (c <=? 57))%N eqn:E1.
  { apply andb_true_iff in E1 as [H1 H2].
    apply N.leb_le in H1, H2. exfalso. apply Hc. now split. }
  destruct ((97 <=? c) && (c <=? 122))%N eqn:E2.
  { apply andb_true_iff in E2 as [H1 _]. apply N.leb_le in H1.
    destruct (N.ltb_spec (c - 87) 10); [lia|reflexivity]. }
  destruct ((65 <=? c) && (c <=? 90))%N eqn:E3; [|reflexivity].
  apply andb_true_iff in E3 as [H1 _]. apply N.leb_le in H1.
  destruct (N.ltb_spec (c - 55) 10); [lia|reflexivity].
Qed.

(** The digits of a numeral are read up to the first other character. *)
Lemma parse_decimal_prefix n rest :
  match rest with [] => True | c :: _ => ~ is_digit c end ->
  parse_digits 10 (decimal n ++ rest) None = Some n.
Proof.
  intros Hrest. unfold decimal. rewrite <- digits_of_app.
  destruct (parse_digits_of _ n rest None (decimal_fuel n)) as [k Hk].
  rewrite Hk. destruct rest as [|c r]; [reflexivity|].
  cbn [parse_digits]. now rewrite radix_digit_not_decimal.
Qed.

Lemma decimal_zero_only n : decimal n = [48%N] -> n = 0%N.
Proof.
  intros H. pose proof (parse_decimal n) as Hp. rewrite H in Hp.
  now injection Hp.
Qed.

Lemma read_radix_decimal_prefix n rest :
  match rest with [] => True | c :: _ => ~ is_digit c end ->
  (n = 0%N -> match rest with
              | c :: _ => c <> 120%N /\ c <> 88%N
              | [] => True
              end) ->
  read_radix (decimal n ++ rest) = (10%N, decimal n ++ rest).
Proof.
  intros Hrest Hx.
  pose proof (decimal_digits n) as Hall.
  destruct (digits_of_cons (N.to_nat (N.log2 n)) n []) as (c & r & Hcr).
  fold (decimal n) in Hcr. pose proof (decimal_zero_only n) as Hzero.
  rewrite Hcr in Hall, Hzero |- *.
  inversion Hall as [|? ? Hc Hr]; subst.
  destruct r as [|x r].
  - destruct rest as [|y rest]; cbn [app].
    + digit_cases Hc; reflexivity.
    + digit_cases Hc; try reflexivity.
      destruct (Hx (Hzero eq_refl)) as [H1 H2].
      cbn [read_radix].
      apply N.eqb_neq in H1, H2. now rewrite H1, H2.
  - inversion Hr as [|? ? Hxd _]; subst. cbn [app].
    digit_cases Hc; try reflexivity. digit_cases Hxd; reflexivity.
Qed.

Lemma parseInt_decimal_prefix n rest :
  match rest with [] => True | c :: _ => ~ is_digit c end ->
  (n = 0%N -> match rest with
              | c :: _ => c <> 120%N /\ c <> 88%N
              | [] => True
              end) ->
  parseInt (QString (decimal n ++ rest)) = Num (Z.of_N n)
  /\ parseInt (QString (45%N :: decimal n ++ rest)) = Num (- Z.of_N n).
Proof.
  intros Hrest Hx.
  pose proof (read_radix_decimal_prefix n rest Hrest Hx) as Hradix.
  pose proof (parse_decimal_prefix n rest Hrest) as Hparse.
  destruct (digits_of_cons (N.to_nat (N.log2 n)) n []) as (c & r & Hcr).
  fold (decimal n) in Hcr.
  assert (Hc : is_digit c).
  { pose proof (decimal_digits n) as Hall. rewrite Hcr in Hall.
    now inversion Hall. }
  split; unfold parseInt; cbn [ToString].
  - rewrite Hcr. cbn [app]. rewrite trim_start_digit, read_sign_digit by assumption.
    change (c :: r ++ rest) with ((c :: r) ++ rest). rewrite <- Hcr.
    rewrite Hradix, Hparse. f_equal; lia.
  - change (trim_start (45%N :: decimal n ++ rest)) with (45%N :: decimal n ++ rest).
    cbn [read_sign]. rewrite Hradix, Hparse. f_equal; lia.
Qed.

(** X1. What follows the leading integer of [duration] is ignored: with
    [rest] not starting with a digit, [duration=d rest] (as [12abc], [2.5]
    or [7 ]) asks for the same duration as [duration=d]. The one exception
    is a zero followed by [x] or [X], which is read as a hexadecimal
    prefix. *)
Theorem duration_ignores_what_follows d rest :
  match rest with [] => True | c :: _ => ~ is_digit c end ->
  (d = 0 -> match rest with
            | c :: _ => c <> 120%N /\ c <> 88%N
            | [] => True
            end) ->
  requested_duration (QString (decimalZ d ++ rest))
  = requested_duration (QString (decimalZ d)).
Proof.
  intros Hrest Hx. unfold requested_duration.
  rewrite parseInt_decimalZ. unfold decimalZ.
  destruct (Z.ltb_spec d 0).
  - cbn [app].
    assert (Hn : Z.to_N (- d) = 0%N ->
                 match rest with
                 | c :: _ => c <> 120%N /\ c <> 88%N
                 | [] => True
                 end) by (intros H0; exfalso; lia).
    rewrite (proj2 (parseInt_decimal_prefix (Z.to_N (- d)) rest Hrest Hn)).
    do 3 f_equal. lia.
  - assert (Hn : Z.to_N d = 0%N ->
                 match rest with
                 | c :: _ => c <> 120%N /\ c <> 88%N
                 | [] => True
                 end) by (intros H0; apply Hx; lia).
    rewrite (proj1 (parseInt_decimal_prefix (Z.to_N d) rest Hrest Hn)).
    do 3 f_equal. lia.
Qed.

Lemma duration_ignores_what_follows_witness :
  requested_duration (QString (decimalZ 12 ++ str "abc"))
  = requested_duration (QString (decimalZ 12)).
Proof.
  apply (duration_ignores_what_follows 12 (str "abc")).
  - unfold is_digit. simpl. lia.
  - intros H. discriminate H.
Defined.

Example duration_fraction : requested_duration (QString (str "2.5")) = 2.
Proof. reflexivity. Qed.
Example duration_hexadecimal : requested_duration (QString (str "0x1f")) = 30.
Proof. reflexivity. Qed.

(** ** The health report and its readers *)

(** Runs the handlers of a request on a world whose parts are named. *)
Ltac run_more :=
  cbv beta iota zeta delta
    [get_health get_metrics get_ready get_unknown unknown_route serve complete
     error_handler
     track health_handler Legacy.health_handler metrics_handler ready_handler
     not_found_handler emit_finish finish_listener
     redis_incr register_metrics Date_now process_uptime process_memoryUsage
     logger httpRequestsTotal_inc httpRequestDuration_observe
     activeConnections_inc activeConnections_dec activeConnections_add
     modify_registry ask bind ret outcome_res
     res_json res_end res_set res_status res_on_finish fresh_res
     fst snd app statusCode headers body on_finish
     wall heap uptime redis prom registry logs feed used
     httpRequestsTotal httpRequestDuration loadTestsTotal activeConnections] in *.

(** X2. One health check asks the counter store for one increment, reads
    the heap three times, writes no log line and leaves the serializer
    alone. The [memory] check of the report is [ok] exactly when the heap
    in use, at the third reading, is below 500 * 1024 * 1024 bytes; the
    status is 200 either way. *)
Theorem health_probe_effects HOSTNAME toISOString production req w :
  let '(res, w') := get_health HOSTNAME toISOString production req w in
  used (redis w') = S (used (redis w))
  /\ used (heap w') = (3 + used (heap w))%nat
  /\ used (prom w') = used (prom w)
  /\ logs w' = logs w
  /\ statusCode res = 200
  /\ exists checks,
       response_field "checks" (body res) = Some checks
       /\ field "memory" checks
          = Some (VStr (if (heapUsed (feed (heap w) (2 + used (heap w)))
                            <? 524288000)%N
                        then str "ok" else str "warning")).
Proof.
  open_world w. run_more.
  match goal with |- context [match ?r with Resolved _ => _ | Rejected _ => _ end] =>
    destruct r
  end; repeat split; eexists; split; reflexivity.
Qed.

Example health_memory_warning :
  let w := {| wall := wall sample_world;
              heap := {| feed := fun _ => {| heapUsed := 524288000;
                                             heapTotal := 600000000 |};
                         used := 0 |};
              uptime := uptime sample_world; redis := redis sample_world;
              prom := prom sample_world; registry := empty_registry;
              logs := [] |} in
  let res := fst (get_health sample_host sample_iso false
                    (sample_request "/health") w) in
  statusCode res = 200
  /\ (response_field "checks" (body res) ≫= field "memory")
     = Some (VStr (str "warning")).
Proof. vm_compute. split; reflexivity. Qed.

Lemma health_memory_report HOSTNAME toISOString production req w :
  exists mem,
    response_field "memory"
      (body (fst (get_health HOSTNAME toISOString production req w))) = Some mem
    /\ field "used" mem
       = Some (VStr (decimal (megabytes (heapUsed (feed (heap w) (used (heap w)))))
                     ++ str " MB")).
Proof. open_world w. run_more. eexists. split; reflexivity. Qed.

(** X3. The dashboards read back the megabytes of the report: [parseInt]
    of the [used] field of a health report is the heap in use, in bytes,
    over 2^20 and rounded, as a number. *)
Theorem dashboard_reads_megabytes HOSTNAME toISOString production req w :
  let res := fst (get_health HOSTNAME toISOString production req w) in
  exists mem memUsed,
    response_field "memory" (body res) = Some mem
    /\ field "used" mem = Some (VStr memUsed)
    /\ Dashboard.memValue memUsed
       = Num (Z.of_N (megabytes (heapUsed (feed (heap w) (used (heap w)))))).
Proof.
  destruct (health_memory_report HOSTNAME toISOString production req w)
    as (mem & Hmem & Hused).
  cbv zeta. eexists mem, _. split; [exact Hmem|]. split; [exact Hused|].
  unfold Dashboard.memValue.
  apply parseInt_decimal_prefix.
  - unfold is_digit. simpl. lia.
  - intros _. split; discriminate.
Qed.

Lemma memValue_megabytes n :
  Dashboard.memValue (decimal n ++ str " MB") = Num (Z.of_N n).
Proof.
  unfold Dashboard.memValue. apply parseInt_decimal_prefix.
  - unfold is_digit. simpl. lia.
  - intros _. split; discriminate.
Qed.

Lemma memPercent_value n :
  exists p,
    Dashboard.memPercent (decimal n ++ str " MB") = Some p
    /\ (p == inject_Z (Z.min (Z.of_N n) 256) * 100 / 256)%Q
    /\ (0 <= p)%Q /\ (p <= 100)%Q.
Proof.
  unfold Dashboard.memPercent. rewrite memValue_megabytes. cbv zeta.
  set (v := Z.of_N n). assert (Hv : 0 <= v) by (unfold v; lia).
  destruct (Qle_bool (inject_Z v / 256 * 100) 100) eqn:E; eexists; (split; [reflexivity|]).
  - apply Qle_bool_iff in E.
    assert (Hle : v <= 256).
    { unfold Qle, Qdiv, Qmult, Qinv, inject_Z in E. cbn in E. lia. }
    rewrite Z.min_l by assumption.
    split; [unfold Qeq, Qdiv, Qmult, Qinv, inject_Z; cbn; lia|].
    split; [|exact E].
    unfold Qle, Qdiv, Qmult, Qinv, inject_Z. cbn. lia.
  - assert (Hgt : 256 < v).
    { destruct (Z.le_gt_cases v 256) as [Hle|Hgt]; [|exact Hgt].
      exfalso. assert (Hq : Qle_bool (inject_Z v / 256 * 100) 100 = true).
      { apply Qle_bool_iff. unfold Qle, Qdiv, Qmult, Qinv, inject_Z. cbn. lia. }
      rewrite Hq in E. discriminate E. }
    rewrite Z.min_r by lia. split; [reflexivity|]. split; discriminate.
Qed.

(** X4. The memory bar of the dashboard is never wider than 100 percent:
    for a health report with [mb] megabytes in use, the width is
    [min(mb, 256) * 100 / 256] percent. *)
Theorem memory_bar_width HOSTNAME toISOString production req w :
  let res := fst (get_health HOSTNAME toISOString production req w) in
  let mb := Z.of_N (megabytes (heapUsed (feed (heap w) (used (heap w))))) in
  exists mem memUsed p,
    response_field "memory" (body res) = Some mem
    /\ field "used" mem = Some (VStr memUsed)
    /\ Dashboard.memPercent memUsed = Some p
    /\ (p == inject_Z (Z.min mb 256) * 100 / 256)%Q
    /\ (0 <= p)%Q /\ (p <= 100)%Q.
Proof.
  destruct (health_memory_report HOSTNAME toISOString production req w)
    as (mem & Hmem & Hused).
  destruct (memPercent_value (megabytes (heapUsed (feed (heap w) (used (heap w))))))
    as (p & Hp & Hrest).
  cbv zeta. eexists mem, _, p. split; [exact Hmem|]. split; [exact Hused|].
  split; [exact Hp|exact Hrest].
Qed.

Example memory_bar_full :
  Dashboard.memPercent (str "300 MB") = Some 100%Q.
Proof. reflexivity. Qed.

(** X5. The health report of the single-file application is the report of
    the router without [survivorCount]: on the same process both answer
    200 with the same fields otherwise, and the single-file application
    never calls the counter store. *)
Theorem legacy_health_report HOSTNAME toISOString production req w :
  let '(res, _) := get_health HOSTNAME toISOString production req w in
  let '(old, w') :=
    serve production
      (fun req res =>
         let* res := Legacy.health_handler HOSTNAME toISOString req res in
         ret (Ended res)) req w in
  statusCode old = 200
  /\ used (redis w') = used (redis w)
  /\ exists v,
       body res = Some (BJson v)
       /\ body old = Some (BJson (without_field "survivorCount" v)).
Proof.
  open_world w. run_more.
  match goal with |- context [match ?r with Resolved _ => _ | Rejected _ => _ end] =>
    destruct r
  end; (split; [reflexivity|]); (split; [reflexivity|]);
    eexists; (split; [reflexivity|]); reflexivity.
Qed.

(** X6. Readiness does not depend on the collaborators: [GET /ready]
    answers 200 with [ready] true without calling the counter store, the
    heap counters or the serializer and without writing a log line. *)
Theorem ready_without_collaborators HOSTNAME toISOString production req w :
  let '(res, w') := get_ready HOSTNAME toISOString production req w in
  statusCode res = 200
  /\ response_field "ready" (body res) = Some (VBool true)
  /\ used (redis w') = used (redis w)
  /\ used (heap w') = used (heap w)
  /\ used (prom w') = used (prom w)
  /\ logs w' = logs w.
Proof. open_world w. run_more. repeat split. Qed.

(** ** The accounts of a load test *)

Section LoadAccounts.

Variable HOSTNAME : list N.
Variable tie_up : Z -> bool.




End LoadAccounts.








(** ** GET /api/logs *)

Lemma split_cons sep s : exists l ls, split sep s = l :: ls.
Proof.
  induction s as [|c s IH]; simpl; [eauto|].
  destruct (c =? sep)%N; [eauto|].
  destruct IH as (l & ls & ->). eauto.
Qed.

(** No piece of a split holds the separator. *)
Lemma split_no_sep sep s : Forall (fun l => sep ∉ l) (split sep s).
Proof.
  induction s as [|c s IH]; simpl.
  - constructor; [apply not_elem_of_nil|constructor].
  - destruct (N.eqb_spec c sep) as [->|Hne].
    + constructor; [apply not_elem_of_nil|exact IH].
    + destruct (split sep s) as [|l ls]; [inversion IH|].
      * constructor; [|constructor].
        intros Hin. apply list_elem_of_singleton in Hin. congruence.
      * inversion IH as [|? ? Hl Hls]; subst. constructor; [|exact Hls].
        intros Hin. apply elem_of_cons in Hin as [Heq|Hin]; [congruence|tauto].
Qed.

(** Joining the pieces with the separator gives the text back. *)
Lemma split_join sep s : join_with sep (split sep s) = s.
Proof.
  induction s as [|c s IH]; [reflexivity|]. cbn [split].
  destruct (split_cons sep s) as (l & ls & Hs). rewrite Hs in IH |- *.
  destruct (N.eqb_spec c sep) as [->|Hne].
  - change (join_with sep ([] :: l :: ls)) with (sep :: join_with sep (l :: ls)).
    now rewrite IH.
  - destruct ls as [|l' ls].
    + cbn [join_with] in IH |- *. now rewrite IH.
    + change (join_with sep ((c :: l) :: l' :: ls))
        with (c :: join_with sep (l :: l' :: ls)).
      now rewrite IH.
Qed.

Lemma filter_nonempty ls : Forall (fun l => l <> []) (List.filter nonempty ls).
Proof.
  induction ls as [|[|c l] ls IH]; simpl; [constructor|exact IH|].
  constructor; [discriminate|exact IH].
Qed.

Lemma rev_slice_last {A : Type} n (l : list A) :
  rev (slice_last n l) = take n (rev l).
Proof. unfold slice_last. symmetry. apply firstn_rev. Qed.

Lemma tick_0 w : tick 0 w = w.
Proof. destruct w as [[wf wu] hp up rd pr rg lg]. reflexivity. Qed.

Section LogsProperties.

Variable toISOString : Z -> list N.
Variable JSON_parse : list N -> option jsval.

(** Mapping the lines: one entry per line, in order, and one reading of
    the clock per line that is not JSON. *)
Lemma mapM_log_entry lines : forall w,
  exists items,
    mapM (log_entry toISOString JSON_parse) lines w
    = (items, tick (length (unparsable JSON_parse lines)) w)
    /\ length items = length lines
    /\ (forall i line, lines !! i = Some line ->
          match JSON_parse line with
          | Some v => items !! i = Some v
          | None => exists t, items !! i = Some (raw_entry toISOString line t)
          end).
Proof.
  induction lines as [|line lines IH]; intros w.
  - exists []. cbn [mapM unparsable List.filter length]. rewrite tick_0.
    split; [reflexivity|]. split; [reflexivity|].
    intros i l Hl. now rewrite lookup_nil in Hl.
  - cbn [mapM]. unfold unparsable. cbn [List.filter]. fold (unparsable JSON_parse lines).
    unfold log_entry at 1.
    destruct (JSON_parse line) as [v|] eqn:Hparse.
    + destruct (IH w) as (items & Hrun & Hlen & Hitems).
      exists (v :: items).
      rewrite (bind_run _ _ w v w eq_refl).
      rewrite (bind_run _ _ _ _ _ Hrun).
      split; [reflexivity|]. split; [simpl; now rewrite Hlen|].
      intros [|i] l Hl; simpl in Hl.
      * injection Hl as <-. now rewrite Hparse.
      * now apply Hitems.
    + destruct (IH (tick 1 w)) as (items & Hrun & Hlen & Hitems).
      exists (raw_entry toISOString line (feed (wall w) (used (wall w))) :: items).
      rewrite (bind_run _ _ w
                 (raw_entry toISOString line (feed (wall w) (used (wall w))))
                 (tick 1 w) eq_refl).
      rewrite (bind_run _ _ _ _ _ Hrun).
      split; [unfold ret; rewrite tick_tick; do 2 f_equal; simpl; lia|].
      split; [simpl; now rewrite Hlen|].
      intros [|i] l Hl; simpl in Hl.
      * injection Hl as <-. rewrite Hparse. eauto.
      * now apply Hitems.
Qed.

(** X10. [GET /api/logs] answers with the newest lines first and at most
    a hundred of them: with the non-empty lines of the file counted from
    the last one, the entry at place [i < 100] is the line at place [i],
    parsed as JSON, or wrapped as a message with a timestamp when it is
    not JSON; there are [min(100, lines)] entries; and the handler reads
    the clock once for each line it had to wrap and touches nothing
    else. *)
Theorem logs_newest_first data req res w :
  let lines := List.filter nonempty (split 10 data) in
  exists items,
    logs_handler toISOString JSON_parse (LogFile data) req res w
    = (Ended (res_json (VArr items) res),
       tick (length (unparsable JSON_parse (take 100 (rev lines)))) w)
    /\ length items = Nat.min 100 (length lines)
    /\ Forall (fun line => line <> [] /\ 10%N ∉ line) lines
    /\ (forall i line, (i < 100)%nat -> rev lines !! i = Some line ->
          match JSON_parse line with
          | Some v => items !! i = Some v
          | None => exists t, items !! i = Some (raw_entry toISOString line t)
          end).
Proof.
  intros lines. unfold logs_handler. fold lines. rewrite rev_slice_last.
  destruct (mapM_log_entry (take 100 (rev lines)) w) as (items & Hrun & Hlen & Hitems).
  exists items. rewrite (bind_run _ _ _ _ _ Hrun).
  split; [reflexivity|]. split.
  { rewrite Hlen, length_take, length_rev. reflexivity. }
  split.
  { apply Forall_and. split; [apply filter_nonempty|].
    unfold lines. apply Forall_forall. intros l Hl.
    apply list_elem_of_In, filter_In in Hl. destruct Hl as [Hl _].
    pose proof (split_no_sep 10 data) as Hall.
    rewrite Forall_forall in Hall. apply Hall. now apply list_elem_of_In. }
  intros i line Hi Hline. apply Hitems.
  now rewrite lookup_take_lt.
Qed.

End LogsProperties.

Lemma logs_newest_first_witness :
  exists items,
    length items = 2%nat
    /\ exists t, items !! 0%nat = Some (raw_entry sample_iso (str "plain") t).
Proof.
  destruct (logs_newest_first sample_iso sample_parse sample_log
              (sample_request "/api/logs") fresh_res sample_world)
    as (items & _ & Hlen & _ & Hitems).
  exists items. split; [exact Hlen|].
  exact (Hitems 0%nat (str "plain") ltac:(lia) eq_refl).
Defined.

Example logs_of_three_lines :
  let data := str "{a}" ++ [10%N] ++ [10%N] ++ str "plain" ++ [10%N] in
  let parse := fun l => if bool_decide (l = str "{a}") then Some (VBool true) else None in
  fst (logs_handler sample_iso parse (LogFile data) (sample_request "/api/logs")
         fresh_res sample_world)
  = Ended (res_json
             (VArr [ raw_entry sample_iso (str "plain") 0; VBool true ]) fresh_res).
Proof. vm_compute. reflexivity. Qed.

(** X11. Without a log file [GET /api/logs] still answers 200, with the
    single entry [No logs found yet.]; with a file that cannot be read the
    handler throws, the error handler answers 500, and the request is
    counted under status 500. *)
Theorem logs_without_file toISOString JSON_parse production req w :
  (let '(res, _) :=
     serve production (logs_handler toISOString JSON_parse NoFile) req w in
   statusCode res = 200
   /\ body res
      = Some (BJson (VArr [ VObj [ (str "message", VStr (str "No logs found yet."));
                                   (str "timestamp",
                                     VStr (toISOString (startTime_of w))) ] ])))
  /\ forall e,
       let '(res, w') :=
         serve production (logs_handler toISOString JSON_parse (Unreadable e)) req w in
       statusCode res = 500
       /\ httpRequestsTotal (registry w') !! (method req, path req, 500)
          = Some (S (default 0%nat
                       (httpRequestsTotal (registry w) !! (method req, path req, 500)))).
Proof.
  unfold startTime_of. open_world w. split; [|intros e];
    unfold logs_handler; run_more; (split; [reflexivity|]).
  - reflexivity.
  - apply lookup_insert_eq.
Qed.

(** ** Unknown routes and thrown errors *)

Lemma get_unknown_registry production req w :
  httpRequestsTotal (registry (snd (get_unknown production req w)))
  = <[(method req, path req, 404) :=
        S (default 0%nat (httpRequestsTotal (registry w) !! (method req, path req, 404)))]>
      (httpRequestsTotal (registry w)).
Proof. open_world w. run_more. reflexivity. Qed.

(** X12. A request that matches no route is answered 404 with [error]
    [Not Found] and a [message] that holds the method and the path asked
    for; it is tracked like any other: counted under (method, path, 404),
    with the gauge of connections back to its value. *)
Theorem unknown_route_answer production req w :
  let '(res, w') := get_unknown production req w in
  statusCode res = 404
  /\ response_field "error" (body res) = Some (VStr (str "Not Found"))
  /\ response_field "message" (body res)
     = Some (VStr (str "Route " ++ method req ++ str " " ++ path req
                   ++ str " not found"))
  /\ httpRequestsTotal (registry w') !! (method req, path req, 404)
     = Some (S (default 0%nat
                  (httpRequestsTotal (registry w) !! (method req, path req, 404))))
  /\ activeConnections (registry w') = activeConnections (registry w).
Proof.
  open_world w. run_more.
  split; [reflexivity|]. split; [reflexivity|]. split; [reflexivity|].
  split; [apply lookup_insert_eq|lia].
Qed.

Lemma serve_all_unknown_dom production reqs : forall w,
  dom (httpRequestsTotal
         (registry (snd (serve_all production unknown_route reqs w))))
  = dom (httpRequestsTotal (registry w))
    ∪ list_to_set (map (fun r => (method r, path r, 404)) reqs).
Proof.
  induction reqs as [|req reqs IH]; intros w.
  - cbn [serve_all map list_to_set]. unfold ret. cbn [snd].
    now rewrite (right_id_L ∅ (∪)).
  - cbn [serve_all]. change (serve production unknown_route) with (get_unknown production).
    rewrite (bind_run _ _ _ _ _ (surjective_pairing (get_unknown production req w))).
    rewrite (bind_run _ _ _ _ _
               (surjective_pairing
                  (serve_all production unknown_route reqs
                     (snd (get_unknown production req w))))).
    unfold ret. cbn [snd].
    rewrite IH, get_unknown_registry, dom_insert_L. cbn [map list_to_set].
    now rewrite (assoc_L (∪)), (comm_L (∪) {[_]}).
Qed.

(** X13. Every unknown path becomes a label of the request counter: after
    a run of requests that match no route, the label sets of
    [http_requests_total] are those it had plus (method, path, 404) for
    each request, so requests to pairwise different paths not seen before
    add as many series as there are requests. *)
Theorem unknown_routes_grow_the_counter production reqs w :
  let w' := snd (serve_all production unknown_route reqs w) in
  let keys := map (fun r => (method r, path r, 404)) reqs in
  dom (httpRequestsTotal (registry w'))
  = dom (httpRequestsTotal (registry w)) ∪ list_to_set keys
  /\ (NoDup keys ->
      (forall k, k ∈ keys -> httpRequestsTotal (registry w) !! k = None) ->
      size (httpRequestsTotal (registry w'))
      = (size (httpRequestsTotal (registry w)) + length reqs)%nat).
Proof.
  intros w' keys.
  pose proof (serve_all_unknown_dom production reqs w) as Hdom.
  fold w' keys in Hdom. split; [exact Hdom|].
  intros Hnodup Hfresh.
  rewrite <- !size_dom, Hdom, size_union.
  - rewrite size_list_to_set by assumption. unfold keys. now rewrite length_map.
  - intros k Hk Hin. apply elem_of_list_to_set in Hin.
    apply elem_of_dom in Hk as [x Hx]. rewrite (Hfresh k Hin) in Hx. discriminate.
Qed.

Lemma unknown_routes_grow_the_counter_witness :
  size (httpRequestsTotal
          (registry (snd (serve_all false unknown_route
             [sample_request "/a"; sample_request "/b"] sample_world))))
  = (size (httpRequestsTotal (registry sample_world)) + 2)%nat.
Proof.
  apply (unknown_routes_grow_the_counter false
           [sample_request "/a"; sample_request "/b"] sample_world).
  - apply (bool_decide_unpack _). vm_compute. exact I.
  - intros k Hk. apply lookup_empty.
Defined.

(** X14. In production the answer to a thrown error says nothing of the
    error: two handlers that throw different errors get the same response,
    500 with the message [An error occurred]; outside production the
    message is the error's own. Either way the error is logged. *)
Theorem production_hides_errors req w e1 e2 :
  let thrown e := fun (_ : Request) res => ret (Threw e res) in
  fst (serve true (thrown e1) req w) = fst (serve true (thrown e2) req w)
  /\ statusCode (fst (serve true (thrown e1) req w)) = 500
  /\ response_field "message" (body (fst (serve true (thrown e1) req w)))
     = Some (VStr (str "An error occurred"))
  /\ response_field "message" (body (fst (serve false (thrown e1) req w)))
     = Some (VStr (message e1))
  /\ forall production,
       logs (snd (serve production (thrown e1) req w))
       = logs w ++ [{| lvl := error; text := str "Internal Server Error";
                       meta := Some e1 |}].
Proof.
  open_world w. run_more. repeat split.
Qed.

(** X15. A failed scrape is answered as text in the format of the
    metrics: when the serializer fails, the 500 response still carries the
    content type set before the call, the error is logged once, and the
    scrape is counted under status 500; a scrape that succeeds logs
    nothing. *)
Theorem metrics_scrape_details production req w :
  let '(res, w') := get_metrics production req w in
  headers res = [("Content-Type"%string, contentType)]
  /\ httpRequestsTotal (registry w') !! (method req, path req, statusCode res)
     = Some (S (default 0%nat
                  (httpRequestsTotal (registry w)
                   !! (method req, path req, statusCode res))))
  /\ logs w'
     = match feed (prom w) (used (prom w)) with
       | Serialized _ => logs w
       | Failed e =>
           logs w ++ [{| lvl := error;
                         text := str "[METRICS] Error generating metrics:";
                         meta := Some e |}]
       end.
Proof.
  open_world w. run_more.
  match goal with |- context [match ?r with Serialized _ => _ | Failed _ => _ end] =>
    destruct r
  end; (split; [reflexivity|]); (split; [apply lookup_insert_eq|reflexivity]).
Qed.

(** ** The chart of the dashboard *)

Lemma slice_last_short {A : Type} n (l : list A) :
  (length l <= n)%nat -> slice_last n l = l.
Proof.
  intros H. unfold slice_last.
  now replace (length l - n)%nat with 0%nat by lia.
Qed.

Lemma length_slice_last {A : Type} n (l : list A) :
  length (slice_last n l) = Nat.min n (length l).
Proof. unfold slice_last. rewrite length_drop. lia. Qed.

Lemma slice_last_push {A : Type} n (l : list A) p :
  (0 < n)%nat ->
  slice_last n (slice_last n l ++ [p]) = slice_last n (l ++ [p]).
Proof.
  intros Hn. destruct (Nat.le_gt_cases (length l) n) as [Hle|Hgt].
  - now rewrite (slice_last_short n l).
  - unfold slice_last at 1 3.
    rewrite !length_app, length_slice_last. cbn [length].
    replace (Nat.min n (length l) + 1 - n)%nat with 1%nat by lia.
    unfold slice_last.
    rewrite !drop_app_le by (rewrite ?length_drop; lia).
    rewrite drop_drop. do 2 f_equal. lia.
Qed.

Lemma history_from acc ps :
  fold_left Dashboard.push_point ps (slice_last 20 acc) = slice_last 20 (acc ++ ps).
Proof.
  revert acc. induction ps as [|p ps IH]; intros acc.
  - now rewrite app_nil_r.
  - cbn [fold_left]. unfold Dashboard.push_point at 2.
    rewrite slice_last_push by lia. rewrite IH, <- app_assoc. reflexivity.
Qed.

(** X16. The chart of the dashboard keeps the last twenty points: after
    any number of health checks the history is the last 20 points
    received, in the order received, and is never longer than 20. *)
Theorem history_keeps_last_20 ps :
  Dashboard.history ps = slice_last 20 ps
  /\ length (Dashboard.history ps) = Nat.min 20 (length ps)
  /\ forall i, (i < length (Dashboard.history ps))%nat ->
       Dashboard.history ps !! i = ps !! (length ps - length (Dashboard.history ps) + i)%nat.
Proof.
  assert (H : Dashboard.history ps = slice_last 20 ps).
  { unfold Dashboard.history. apply (history_from [] ps). }
  split; [exact H|]. rewrite H, length_slice_last. split; [reflexivity|].
  intros i Hi. unfold slice_last. rewrite lookup_drop. f_equal. lia.
Qed.

Lemma history_keeps_last_20_witness :
  Dashboard.history sample_points !! 0%nat = sample_points !! 5%nat.
Proof.
  apply (proj2 (proj2 (history_keeps_last_20 sample_points)) 0%nat).
  vm_compute. lia.
Defined.

(** ** Registration and login *)

Ltac run_auth :=
  unfold Auth.login, Auth.register, Auth.try_catch, Auth.andThen, Auth.await,
    Auth.jwt_sign, Auth.signed_callback, Auth.log, Auth.escape, Auth.pure,
    Auth.no_trace, invalid_credentials, server_error in *.

(** X17. A login does not tell an unknown user from a wrong password: both
    are answered 400 with [Invalid Credentials], the same response; no
    token is signed and nothing is logged. *)
Theorem login_same_refusal JWT_SECRET show b1 b2 body res u :
  Auth.findOne b1 (Auth.username body) = Auth.Resolves None ->
  Auth.findOne b2 (Auth.username body) = Auth.Resolves (Some u) ->
  Auth.validPassword b2 u (Auth.password body) = Auth.Resolves false ->
  let '(r1, t1) := Auth.login JWT_SECRET show b1 body res Auth.no_trace in
  let '(r2, t2) := Auth.login JWT_SECRET show b2 body res Auth.no_trace in
  r1 = inl (invalid_credentials res)
  /\ r2 = r1
  /\ Auth.logged t1 = [] /\ Auth.logged t2 = []
  /\ List.filter is_sign (Auth.calls t1) = []
  /\ List.filter is_sign (Auth.calls t2) = [].
Proof.
  intros H1 H2 H3. run_auth. rewrite H1, H2. cbn [Auth.calls app].
  rewrite H3. repeat split.
Qed.

Lemma login_same_refusal_witness :
  let '(r1, t1) := Auth.login (str "k") sample_show empty_store
                     (sample_credentials "guess" None) fresh_res Auth.no_trace in
  let '(r2, t2) := Auth.login (str "k") sample_show one_user_store
                     (sample_credentials "guess" None) fresh_res Auth.no_trace in
  r1 = inl (invalid_credentials fresh_res)
  /\ r2 = r1
  /\ Auth.logged t1 = [] /\ Auth.logged t2 = []
  /\ List.filter is_sign (Auth.calls t1) = []
  /\ List.filter is_sign (Auth.calls t2) = [].
Proof.
  apply (login_same_refusal (str "k") sample_show empty_store one_user_store
           (sample_credentials "guess" None) fresh_res
           {| Auth.id := 1; Auth.role := str "viewer" |});
    reflexivity.
Defined.

(** X18. A token is only issued after the password check: when the
    answer to a login holds a token, the store found the user and
    [validPassword] answered true for the password sent. *)
Theorem login_token_needs_password JWT_SECRET show backend creds r t :
  Auth.login JWT_SECRET show backend creds fresh_res Auth.no_trace = (inl r, t) ->
  is_Some (response_field "token" (body r)) ->
  exists u token,
    Auth.findOne backend (Auth.username creds) = Auth.Resolves (Some u)
    /\ Auth.validPassword backend u (Auth.password creds) = Auth.Resolves true
    /\ Auth.sign backend (Auth.id u) (Auth.role u) = Auth.SignedLater token
    /\ response_field "token" (body r) = Some (VStr token).
Proof.
  intros Hrun [v Htok]. run_auth.
  destruct (Auth.findOne backend (Auth.username creds)) as [[u|]|e] eqn:Hf;
    cbn [Auth.calls Auth.logged Auth.uncaught app] in Hrun.
  - destruct (Auth.validPassword backend u (Auth.password creds)) as [[|]|e] eqn:Hv;
      cbn [Auth.calls Auth.logged Auth.uncaught app] in Hrun.
    + destruct (Auth.sign backend (Auth.id u) (Auth.role u)) as [token|e|e] eqn:Hs;
        cbn [Auth.calls Auth.logged Auth.uncaught app] in Hrun;
        injection Hrun as <- <-.
      * exists u, token. repeat split; assumption || reflexivity.
      * discriminate Htok.
      * discriminate Htok.
    + injection Hrun as <- <-. discriminate Htok.
    + injection Hrun as <- <-. discriminate Htok.
  - injection Hrun as <- <-. discriminate Htok.
  - injection Hrun as <- <-. discriminate Htok.
Qed.

Lemma login_token_needs_password_witness :
  exists u token,
    Auth.findOne one_user_store (Auth.username (sample_credentials "secret" None))
    = Auth.Resolves (Some u)
    /\ Auth.validPassword one_user_store u
         (Auth.password (sample_credentials "secret" None)) = Auth.Resolves true
    /\ Auth.sign one_user_store (Auth.id u) (Auth.role u) = Auth.SignedLater token
    /\ response_field "token"
         (body (res_json (VObj [ (str "token", VStr (str "token"));
                                 (str "role", VStr (str "viewer")) ]) fresh_res))
       = Some (VStr token).
Proof.
  apply (login_token_needs_password (str "k") sample_show one_user_store
           (sample_credentials "secret" None) _
           (snd (Auth.login (str "k") sample_show one_user_store
                   (sample_credentials "secret" None) fresh_res Auth.no_trace))).
  - vm_compute. reflexivity.
  - eexists. vm_compute. reflexivity.
Defined.

(** X19. Registering a name that is taken changes nothing: the answer is
    400 with [User already exists], the only call made is the lookup, so
    no user is created and no token signed, and nothing is logged. *)
Theorem register_taken_name JWT_SECRET show backend creds res u :
  Auth.findOne backend (Auth.username creds) = Auth.Resolves (Some u) ->
  Auth.register JWT_SECRET show backend creds res Auth.no_trace
  = (inl (res_json (VObj [ (str "msg", VStr (str "User already exists")) ])
            (res_status 400 res)),
     {| Auth.calls := [Auth.FindOne (Auth.username creds)];
        Auth.logged := []; Auth.uncaught := None |}).
Proof. intros H. run_auth. rewrite H. reflexivity. Qed.

Lemma register_taken_name_witness :
  Auth.register (str "k") sample_show one_user_store
    (sample_credentials "pw" None) fresh_res Auth.no_trace
  = (inl (res_json (VObj [ (str "msg", VStr (str "User already exists")) ])
            (res_status 400 fresh_res)),
     {| Auth.calls := [Auth.FindOne (Auth.username (sample_credentials "pw" None))];
        Auth.logged := []; Auth.uncaught := None |}).
Proof.
  apply (register_taken_name (str "k") sample_show one_user_store
           (sample_credentials "pw" None) fresh_res
           {| Auth.id := 1; Auth.role := str "viewer" |}).
  reflexivity.
Defined.

(** X20. Registration stores the role the client sends: for a free name
    the second call is [User.create] with the name and password of the
    body and with the role of the body when that is truthy, whatever it
    is, and with [viewer] when it is absent or falsy. *)
Theorem register_role_as_sent JWT_SECRET show backend creds res :
  Auth.findOne backend (Auth.username creds) = Auth.Resolves None ->
  take 2 (Auth.calls (snd (Auth.register JWT_SECRET show backend creds res
                             Auth.no_trace)))
  = [ Auth.FindOne (Auth.username creds);
      Auth.Create (Auth.username creds) (Auth.password creds)
        match Auth.requested_role creds with
        | Some r => if Auth.truthy (Some r) then r else VStr (str "viewer")
        | None => VStr (str "viewer")
        end ].
Proof.
  intros H. run_auth. rewrite H. cbn [Auth.calls Auth.logged Auth.uncaught app].
  destruct (Auth.requested_role creds) as [r|]; cbn [default Auth.truthy];
    [destruct (Auth.truthy (Some r))|];
    cbn [default];
    match goal with
    | |- context [Auth.create ?b ?u ?p ?r] => destruct (Auth.create b u p r) as [usr|e]
    end; try reflexivity;
    destruct (Auth.sign backend (Auth.id usr) (Auth.role usr)); reflexivity.
Qed.

Lemma register_role_as_sent_witness :
  take 2 (Auth.calls (snd (Auth.register (str "k") sample_show empty_store
                             (sample_credentials "pw" (Some (VStr (str "admin"))))
                             fresh_res Auth.no_trace)))
  = [ Auth.FindOne (Auth.username
                      (sample_credentials "pw" (Some (VStr (str "admin")))));
      Auth.Create (Auth.username (sample_credentials "pw" (Some (VStr (str "admin")))))
        (Auth.password (sample_credentials "pw" (Some (VStr (str "admin")))))
        match Auth.requested_role (sample_credentials "pw" (Some (VStr (str "admin")))) with
        | Some r => if Auth.truthy (Some r) then r else VStr (str "viewer")
        | None => VStr (str "viewer")
        end ].
Proof.
  apply (register_role_as_sent (str "k") sample_show empty_store
           (sample_credentials "pw" (Some (VStr (str "admin")))) fresh_res).
  reflexivity.
Defined.

(** X21. A failure of the store is answered 500 with the text [Server
    error] and nothing of the error: when the lookup is rejected, login
    and registration both answer so, whatever the error, and log it. *)
Theorem store_failure_answer JWT_SECRET show backend creds res e :
  Auth.findOne backend (Auth.username creds) = Auth.Rejects e ->
  Auth.login JWT_SECRET show backend creds res Auth.no_trace
  = (inl (server_error res),
     {| Auth.calls := [Auth.FindOne (Auth.username creds)];
        Auth.logged := [{| lvl := error; text := str "Login error"; meta := Some e |}];
        Auth.uncaught := None |})
  /\ Auth.register JWT_SECRET show backend creds res Auth.no_trace
     = (inl (server_error res),
        {| Auth.calls := [Auth.FindOne (Auth.username creds)];
           Auth.logged := [{| lvl := error; text := str "Registration error";
                              meta := Some e |}];
           Auth.uncaught := None |})
  /\ statusCode (server_error res) = 500
  /\ body (server_error res) = Some (BText (str "Server error")).
Proof. intros H. run_auth. rewrite H. repeat split. Qed.

Lemma store_failure_answer_witness :
  Auth.login (str "k") sample_show broken_store (sample_credentials "pw" None)
    fresh_res Auth.no_trace
  = (inl (server_error fresh_res),
     {| Auth.calls := [Auth.FindOne (Auth.username (sample_credentials "pw" None))];
        Auth.logged := [{| lvl := error; text := str "Login error";
                           meta := Some {| message := str "connection refused" |} |}];
        Auth.uncaught := None |})
  /\ Auth.register (str "k") sample_show broken_store (sample_credentials "pw" None)
       fresh_res Auth.no_trace
     = (inl (server_error fresh_res),
        {| Auth.calls := [Auth.FindOne (Auth.username (sample_credentials "pw" None))];
           Auth.logged := [{| lvl := error; text := str "Registration error";
                              meta := Some {| message := str "connection refused" |} |}];
           Auth.uncaught := None |})
  /\ statusCode (server_error fresh_res) = 500
  /\ body (server_error fresh_res) = Some (BText (str "Server error")).
Proof.
  apply (store_failure_answer (str "k") sample_show broken_store
           (sample_credentials "pw" None) fresh_res
           {| message := str "connection refused" |}).
  reflexivity.
Defined.

(** ** From the dashboard to the load test *)

(** X22. The duration picked in the dashboard is the one the server
    runs, up to the cap: the number [n] that [runLoadTest] writes into
    the URL, of magnitude at most 2^53, is read back by the handler as
    [min(n, 30)], with the default of 5 seconds when the dashboard holds
    0 or NaN. *)
Theorem dashboard_duration_round_trip selectedDuration :
  safe_integer selectedDuration ->
  requested_duration (QString (Dashboard.duration_param selectedDuration))
  = match selectedDuration with
    | NaN => 5
    | Num z => Z.min (if z =? 0 then 5 else z) 30
    end.
Proof.
  intros _. destruct selectedDuration as [|z]; [reflexivity|].
  apply requested_duration_decimal.
Qed.

Lemma dashboard_duration_round_trip_witness :
  safe_integer (Num 60)
  /\ requested_duration (QString (Dashboard.duration_param (Num 60))) = 30.
Proof.
  assert (B : safe_integer (Num 60)) by (change (Z.abs 60 <= 2 ^ 53); lia).
  split; [exact B|].
  exact (dashboard_duration_round_trip (Num 60) B).
Defined.
